(** * Task Master: the claude-code provider and the unified AI service

    A shallow embedding of [src/ai-providers/claude-code.js] (the provider
    that shells out to the local Claude Code CLI) and of the role cascade of
    [scripts/modules/ai-services-unified.js], followed by the properties
    stated about them.

    Conventions.  A JavaScript string is a [string]; a thrown [Error] is a
    value of [Exn] together with the function [message] that renders its
    [.message]; an [async] function that touches the outside world is a
    function from the world before the call to an outcome and the world
    after it.  Everything is awaited sequentially in the source, so one
    world is threaded through. *)

From Stdlib Require Import String Ascii List ZArith Lia Bool DecimalString Permutation.
Import ListNotations.
Open Scope string_scope.

(** ** JavaScript primitives the code relies on *)

Module JS.

(** [hay.includes(needle)] *)
Fixpoint includes (hay needle : string) : bool :=
  if prefix needle hay then true
  else match hay with
       | EmptyString => false
       | String _ rest => includes rest needle
       end.

(** White space removed by [String.prototype.trim], restricted to the code
    units below 256: TAB, LF, VT, FF, CR, SPACE and NBSP. *)
Definition isSpace (c : ascii) : bool :=
  let n := nat_of_ascii c in
  (Nat.leb 9 n && Nat.leb n 13) || Nat.eqb n 32 || Nat.eqb n 160.

Fixpoint trimStart (s : string) : string :=
  match s with
  | EmptyString => EmptyString
  | String c rest => if isSpace c then trimStart rest else s
  end.

Fixpoint trimEnd (s : string) : string :=
  match s with
  | EmptyString => EmptyString
  | String c rest =>
      match trimEnd rest with
      | EmptyString => if isSpace c then EmptyString else String c EmptyString
      | t => String c t
      end
  end.

(** [s.trim()] *)
Definition trim (s : string) : string := trimEnd (trimStart s).

(** A string is truthy when it is not empty. *)
Definition truthy (s : string) : bool :=
  match s with EmptyString => false | _ => true end.

(** [a || b] on strings. *)
Definition or (a b : string) : string := if truthy a then a else b.

(** Template rendering of an integer, [`${n}`]. *)
Definition ofInt (n : Z) : string := NilZero.string_of_int (Z.to_int n).

(** Template rendering of a value that is an integer or [null]. *)
Definition ofNullableInt (n : option Z) : string :=
  match n with Some k => ofInt k | None => "null" end.

(** The longest prefix of [s] that ends in a closing brace. *)
Fixpoint upToLastBrace (s : string) : option string :=
  match s with
  | EmptyString => None
  | String c rest =>
      match upToLastBrace rest with
      | Some t => Some (String c t)
      | None => if Ascii.eqb c "}" then Some (String c EmptyString) else None
      end
  end.

(** [s.match(/\{[\s\S]*\}/)]: the leftmost opening brace followed by the
    longest run of arbitrary characters that ends in a closing brace.
    [None] is the [null] of a failed match, [Some m] is [match[0]]. *)
Fixpoint matchBraces (s : string) : option string :=
  match s with
  | EmptyString => None
  | String c rest =>
      if Ascii.eqb c "{" then
        match upToLastBrace rest with
        | Some t => Some (String c t)
        | None => matchBraces rest
        end
      else matchBraces rest
  end.

End JS.

(** ** What both modules share *)

Module Utils.

(** Levels of the logger of [scripts/modules/utils.js]. *)
Inductive Level := debug | info | warn | error | success.

(** One entry of a [messages] array. *)
Record Message := { role : string; content : string }.

End Utils.

(** ** The claude-code provider *)

Module ClaudeCode.

Export Utils.

(** How a spawned CLI process ends: the [close] event with its exit code
    ([None] is the [null] of a process killed by a signal) and what it
    wrote, or the [error] event of a process that could not be run. *)
Inductive Exit :=
| Close (code : option Z) (stdout stderr : string)
| Failed (reason : string).

(** The world of the provider: the prompts written to the standard input
    of the processes spawned so far and the log lines emitted so far, both
    newest first. *)
Record World := { spawned : list string; logged : list (Level * string) }.

Definition start : World := {| spawned := []; logged := [] |}.

(** The errors the module can raise, by the place that raises them. *)
Inductive Exn :=
| NoUserMessage
| CliFailed (code : option Z) (stderr : string)
| CliNotExecuted (reason : string)
| NoJsonObject
| JsonSyntax (msg : string)
| SchemaRejected (msg : string)
| Exhausted (maxRetries : Z) (last : string)
| NullLastError.

(** [error.message] *)
Definition message (e : Exn) : string :=
  match e with
  | NoUserMessage => "At least one user message is required"
  | CliFailed code stderr =>
      "Claude Code CLI failed with code " ++ JS.ofNullableInt code ++ ": " ++ stderr
  | CliNotExecuted reason => "Failed to execute Claude Code CLI: " ++ reason
  | NoJsonObject => "Response did not contain valid JSON object"
  | JsonSyntax msg => msg
  | SchemaRejected msg => msg
  | Exhausted n last =>
      "Failed to generate valid object after " ++ JS.ofInt n ++ " attempts: " ++ last
  | NullLastError => "Cannot read properties of null (reading 'message')"
  end.

Inductive Result (A : Type) :=
| Ok (value : A)
| Throw (exn : Exn).
Arguments Ok {A} value.
Arguments Throw {A} exn.

(** Computations of the provider: state passing with exceptions. *)
Definition M (A : Type) : Type := World -> Result A * World.

Definition ret {A} (a : A) : M A := fun w => (Ok a, w).
Definition throw {A} (e : Exn) : M A := fun w => (Throw e, w).
Definition bind {A B} (m : M A) (k : A -> M B) : M B :=
  fun w => match m w with
           | (Ok a, w') => k a w'
           | (Throw e, w') => (Throw e, w')
           end.

Declare Scope cc_scope.
Delimit Scope cc_scope with cc.
Notation "x <- m ;; k" := (bind m (fun x => k))
  (at level 100, m at next level, right associativity) : cc_scope.
Notation "m ;;; k" := (bind m (fun _ => k))
  (at level 100, right associativity) : cc_scope.

(** [log(level, line)] *)
Definition log (l : Level) (line : string) : M unit :=
  fun w => (Ok tt, {| spawned := spawned w; logged := (l, line) :: logged w |}).

Definition isSystem (m : Message) : bool := (role m =? "system")%string.
Definition isUser (m : Message) : bool := (role m =? "user")%string.

(** [messages.find(msg => msg.role === 'system')?.content || ''] *)
Definition systemContent (messages : list Message) : string :=
  JS.or (match find isSystem messages with
         | Some m => content m
         | None => ""
         end) "".

(** The prompt built at lines 64-75 of the provider, [None] when the guard
    of line 67 throws. *)
Definition promptContent (messages : list Message) : option string :=
  let systemMessage := systemContent messages in
  let userMessages := filter isUser messages in
  if Nat.eqb (length userMessages) 0 then None
  else
    let userMessage :=
      content (nth (length userMessages - 1) userMessages
                   {| role := ""; content := "" |}) in
    Some (if JS.truthy systemMessage
          then systemMessage ++ String "010" (String "010" userMessage)
          else userMessage).

(** JavaScript values, as far as the shape of a result is concerned. *)
#[warnings="-register-all"]
Inductive Value :=
| Str (s : string)
| Num (n : Z)
| Obj (fields : list (string * Value))
| Stream (chunks : list string).

Section Provider.

(** The installed CLI: what the process spawned as number [n] (counting
    from zero) does with the prompt it reads. *)
Variable cli : nat -> string -> Exit.

(** [spawn], the write of the prompt to the standard input, and the
    promise settled by the [close] or [error] event. *)
Definition runCli (prompt : string) : M string :=
  fun w =>
    let w' := {| spawned := prompt :: spawned w; logged := logged w |} in
    match cli (length (spawned w)) prompt with
    | Close (Some 0%Z) stdout _ => (Ok (JS.trim stdout), w')
    | Close code _ stderr => (Throw (CliFailed code stderr), w')
    | Failed reason => (Throw (CliNotExecuted reason), w')
    end.

(** [generateClaudeCodeText({ messages, maxTokens, temperature })];
    [maxTokens] and [temperature] are accepted and never read. *)
Definition generateClaudeCodeText (messages : list Message) : M string :=
  (log debug "Generating text with local Claude Code CLI" ;;;
   match promptContent messages with
   | None => throw NoUserMessage
   | Some prompt => runCli prompt
   end)%cc.

(** [streamClaudeCodeText(params)]: the text is generated in one piece
    and wrapped in a stream that delivers it as a single chunk. *)
Definition streamClaudeCodeText (messages : list Message) : M Value :=
  (text <- generateClaudeCodeText messages ;;
   ret (Obj [ ("textStream", Stream [text]);
              ("text", Str text);
              ("usage", Obj [ ("promptTokens", Num 0);
                              ("completionTokens", Num 0) ]) ]))%cc.

(** Parsed JSON data, and [JSON.parse]: the parsed value, or the message
    of the [SyntaxError] it throws. *)
Variable Json : Type.
Variable JSON_parse : string -> Json + string.

(** What the code uses of a zod schema: the rendering
    [JSON.stringify(schema._def.shape())] and [schema.parse], which
    returns the validated object or throws an error with a message. *)
Record Schema := {
  shapeJson : string;
  parse : Json -> Json + string
}.

Record ObjectParams := {
  messages : list Message;
  schema : Schema;
  objectName : option string;
  maxRetries : option Z
}.

Definition objectNameOf (p : ObjectParams) : string :=
  match objectName p with Some n => n | None => "generated_object" end.
Definition maxRetriesOf (p : ObjectParams) : Z :=
  match maxRetries p with Some n => n | None => 3%Z end.

(** Lines 171-173: the system prompt that asks for bare JSON. *)
Definition systemPrompt (p : ObjectParams) : string :=
  systemContent (messages p)
  ++ String "010" (String "010"
       ("IMPORTANT: Your response must be ONLY valid JSON that matches this schema: "
        ++ shapeJson (schema p) ++ "." ++ String "010"
       ("The response should be a single valid JSON object for "
        ++ objectNameOf p
        ++ " with no other text, no markdown code blocks, no explanations."))).

(** Lines 176-179. *)
Definition jsonMessages (p : ObjectParams) : list Message :=
  {| role := "system"; content := systemPrompt p |}
  :: filter (fun m => negb (isSystem m)) (messages p).

(** Lines 198-210: parse the whole response, else the braces in it. *)
Definition extractJson (jsonText : string) : M Json :=
  match JSON_parse jsonText with
  | inl jsonObject => ret jsonObject
  | inr _ =>
      match JS.matchBraces jsonText with
      | None => throw NoJsonObject
      | Some jsonMatch =>
          match JSON_parse jsonMatch with
          | inl jsonObject => ret jsonObject
          | inr msg => throw (JsonSyntax msg)
          end
      end
  end.

(** Line 213. *)
Definition validate (s : Schema) (jsonObject : Json) : M Json :=
  match parse s jsonObject with
  | inl validatedObject => ret validatedObject
  | inr msg => throw (SchemaRejected msg)
  end.

(** The body of the [try] block, lines 188-215. *)
Definition attempt (p : ObjectParams) : M Json :=
  (jsonText <- generateClaudeCodeText (jsonMessages p) ;;
   log debug ("Raw response from Claude: " ++ substring 0 500 jsonText ++ "...") ;;;
   jsonObject <- extractJson jsonText ;;
   validate (schema p) jsonObject)%cc.

(** Line 221: the test that decides whether a caught error is retried. *)
Definition retried (e : Exn) : bool :=
  JS.includes (message e) "JSON" || JS.includes (message e) "schema".

(** The [while] loop of lines 185-227 and the [throw] after it.  [fuel]
    bounds the number of iterations; [None] means it ran out. *)
Fixpoint attemptLoop (fuel : nat) (p : ObjectParams) (attempts : Z)
    (lastError : option Exn) (w : World) : option (Result Json * World) :=
  if (attempts <? maxRetriesOf p)%Z then
    match fuel with
    | O => None
    | S fuel' =>
        let attempts := (attempts + 1)%Z in
        match attempt p w with
        | (Ok validatedObject, w1) => Some (Ok validatedObject, w1)
        | (Throw e, w1) =>
            let (_, w2) :=
              log warn ("Attempt " ++ JS.ofInt attempts ++ " failed: " ++ message e) w1 in
            if retried e
            then attemptLoop fuel' p attempts (Some e) w2
            else Some (Throw e, w2)
        end
    end
  else
    match lastError with
    | Some e => Some (Throw (Exhausted (maxRetriesOf p) (message e)), w)
    | None => Some (Throw NullLastError, w)
    end.

(** [generateClaudeCodeObject({ messages, schema, objectName, maxTokens,
    temperature, maxRetries })] *)
Definition generateClaudeCodeObject (fuel : nat) (p : ObjectParams) (w : World)
    : option (Result Json * World) :=
  let (_, w0) :=
    log debug ("Generating object '" ++ objectNameOf p ++ "' with Claude Code CLI") w in
  attemptLoop fuel p 0 None w0.

(** Iterations that are always enough for the loop to finish. *)
Definition enoughFuel (p : ObjectParams) : nat := Z.to_nat (maxRetriesOf p).

End Provider.

End ClaudeCode.

(** ** The unified AI service

    [scripts/modules/ai-services-unified.js] is not among the sources; only
    its test suite is.  The definitions of this module follow sections 4.1
    to 4.4 of the specification, and take the literal log lines from the
    assertions of the test suite. *)

Module Service.

Export Utils.

(** Modelled from the spec: the closed enumeration of roles of section 3,
    of the absent [ai-services-unified.js]. *)
Inductive Role := main | fallback | research.

Definition Role_eqb (a b : Role) : bool :=
  match a, b with
  | main, main | fallback, fallback | research, research => true
  | _, _ => false
  end.

(** Modelled from the spec: the name of a role as it appears in log lines,
    of the absent [ai-services-unified.js]. *)
Definition roleName (r : Role) : string :=
  match r with
  | main => "main"
  | fallback => "fallback"
  | research => "research"
  end.

(** Modelled from the spec: the fixed cascade order of section 4.2, of the
    absent [ai-services-unified.js]. *)
Definition canonical : list Role := [main; fallback; research].

(** The part of [l] that starts at the first occurrence of [r]. *)
Fixpoint suffixFrom (r : Role) (l : list Role) : list Role :=
  match l with
  | [] => []
  | x :: rest => if Role_eqb x r then l else suffixFrom r rest
  end.

(** Modelled from the spec: the sequence walked for a request, "the
    remainder of this same fixed list starting at its own position"
    (section 4.2), of the absent [ai-services-unified.js]. *)
Definition sequenceFor (r : Role) : list Role := suffixFrom r canonical.

(** Modelled from the spec: the usage record of section 3. *)
Record Usage := { inputTokens : Z; outputTokens : Z; totalTokens : Z }.

(** Modelled from the spec: the generation parameters of a role
    (section 3); the temperature is carried as a rational. *)
Record Params := { maxTokens : Z; temperature : Z * positive }.

(** Modelled from the spec: the input of the provider contract of
    sections 4.4 and 6, [{apiKey, modelId, maxTokens, temperature,
    messages}], with [None] for [apiKey: null]. *)
Record Request := {
  apiKey : option string;
  modelId : string;
  params : Params;
  messages : list Message
}.

(** Modelled from the spec: what a provider call does, [{text, usage}] or
    a raised error with its message (section 6). *)
Inductive Reply :=
| Generated (text : string) (usage : Usage)
| Raised (msg : string).

(** Modelled from the spec: the collaborators of the service (section 6):
    the configuration ([get<Role>Provider], [None] when no provider is
    configured; [get<Role>ModelId]; [getParametersForRole];
    [isApiKeySet]), the credential resolution, the provider registry
    ([respond p n req] is what the [generateText] of provider [p] does on
    its call number [n], counted from zero), the classifier of the Retry
    Controller and its retry budget (section 4.3). *)
Record Env (Session : Type) := {
  getProvider : Role -> option string -> option string;
  getModelId : Role -> option string -> string;
  getParametersForRole : Role -> option string -> Params;
  isApiKeySet : string -> Session -> option string -> bool;
  resolveEnvVariable : string -> Session -> option string -> option string;
  respond : string -> nat -> Request -> Reply;
  isRetryable : string -> bool;
  retryBudget : nat
}.
Arguments getProvider {Session}.
Arguments getModelId {Session}.
Arguments getParametersForRole {Session}.
Arguments isApiKeySet {Session}.
Arguments resolveEnvVariable {Session}.
Arguments respond {Session}.
Arguments isRetryable {Session}.
Arguments retryBudget {Session}.

(** Modelled from the spec: the providers flagged "local, no credential
    required" of section 4.1, the local model runner and the local CLI,
    named as in the test suite. *)
Definition requiresCredential (providerId : string) : bool :=
  negb ((providerId =? "claude-code")%string || (providerId =? "ollama")%string).

(** Modelled from the spec: what the service does to the outside, in the
    order it does it: a resolution of a role through the configuration, a
    query of the credential-presence predicate, a resolution of the
    credential itself, a call of a provider, a log line. *)
Inductive Event :=
| Resolved (r : Role)
| KeyChecked (providerId : string)
| KeyResolved (providerId : string)
| Invoked (r : Role) (providerId : string) (req : Request)
| Logged (l : Level) (line : string).

(** The events so far, newest first. *)
Definition World : Type := list Event.

(** The number of calls made to a provider so far. *)
Fixpoint calls (providerId : string) (w : World) : nat :=
  match w with
  | [] => 0
  | Invoked _ p _ :: rest =>
      if (p =? providerId)%string then S (calls providerId rest)
      else calls providerId rest
  | _ :: rest => calls providerId rest
  end.

(** Modelled from the spec: the telemetry attached to a successful result
    (section 4.5), without the cost, which is floating-point arithmetic. *)
Record Telemetry := {
  usedRole : Role;
  usedProvider : string;
  usedModel : string;
  usedTokens : Usage
}.

(** Modelled from the spec: the result of a successful call, the text with
    its telemetry (sections 3 and 4.5). *)
Record Success := { text : string; telemetryData : Telemetry }.

(** Modelled from the spec: the aggregate failure of section 4.2, which
    "names every role attempted and the final underlying error message". *)
Record Aggregate := { attempted : list Role; underlying : option string }.

(** Modelled from the spec: how one role of the cascade ends. *)
Inductive Attempt :=
| Succeeded (res : Success)
| Skipped
| FailedWith (msg : string).

(** Modelled from the spec: how the service call ends. *)
Inductive Outcome :=
| Fulfilled (res : Success)
| Rejected (agg : Aggregate).

(** Modelled from the spec: the warning of a role skipped for a missing
    credential (sections 4.1 and 6), in the words the test suite asserts. *)
Definition skipLine (r : Role) (providerId : string) : string :=
  "Skipping role '" ++ roleName r ++ "' (Provider: " ++ providerId
  ++ "): API key not set or invalid.".

(** Modelled from the spec: the info line of a retry (section 4.3), in the
    words the test suite asserts. *)
Definition retryLine : string := "Retryable error detected. Retrying".

(** Modelled from the spec: the info line that opens the attempt of a role,
    in the words the test suite asserts. *)
Definition newCallLine (r : Role) : string :=
  "New AI service call with role: " ++ roleName r.

(** Modelled from the spec: the error line of a failed role (step 5 of
    section 4.2), in the words the test suite asserts. *)
Definition failedLine (r : Role) : string :=
  "Service call failed for role " ++ roleName r.

(** [sequence.join(', ')] *)
Fixpoint joinNames (l : list Role) : string :=
  match l with
  | [] => ""
  | [r] => roleName r
  | r :: rest => roleName r ++ ", " ++ joinNames rest
  end.

(** Modelled from the spec: the error line of the exhausted cascade, in the
    words the test suite asserts. *)
Definition exhaustedLine (seq : list Role) : string :=
  "All roles in the sequence [" ++ joinNames seq ++ "] failed.".

Section Run.

Context {Session : Type}.
Variable E : Env Session.
Variable session : Session.
Variable projectRoot : option string.

(** Modelled from the spec: the Retry Controller of section 4.3.  A
    retryable error restarts the call of the same role while the budget
    lasts, with an info line for each retry; any other error, and a
    retryable one with the budget spent, ends the role.  The backoff
    delay is real time and is left out. *)
Fixpoint callWithRetries (budget : nat) (r : Role) (providerId : string)
    (req : Request) (w : World) : Reply * World :=
  let w1 := Invoked r providerId req :: w in
  match respond E providerId (calls providerId w) req with
  | Generated t u => (Generated t u, w1)
  | Raised msg =>
      match budget with
      | S budget' =>
          if isRetryable E msg
          then callWithRetries budget' r providerId req
                 (Logged info retryLine :: w1)
          else (Raised msg, w1)
      | O => (Raised msg, w1)
      end
  end.

(** Modelled from the spec: the Availability Gate of section 4.1.  A
    credential-free provider passes with [apiKey: null] and touches
    nothing; any other provider is asked for through [isApiKeySet] with
    the session unmodified, and its credential is resolved when the
    answer is yes.  [None] is "unavailable". *)
Definition gate (providerId : string) (w : World)
    : option (option string) * World :=
  if requiresCredential providerId then
    let w1 := KeyChecked providerId :: w in
    if isApiKeySet E providerId session projectRoot
    then (Some (resolveEnvVariable E providerId session projectRoot),
          KeyResolved providerId :: w1)
    else (None, w1)
  else (Some None, w).

(** Modelled from the spec: steps 1 to 5 of section 4.2 for one role. *)
Definition tryRole (r : Role) (msgs : list Message) (w : World)
    : Attempt * World :=
  let w0 := Resolved r :: Logged info (newCallLine r) :: w in
  match getProvider E r projectRoot with
  | None =>
      (Skipped,
       Logged warn ("Skipping role '" ++ roleName r ++ "': no provider configured.")
       :: w0)
  | Some providerId =>
      match gate providerId w0 with
      | (None, w1) => (Skipped, Logged warn (skipLine r providerId) :: w1)
      | (Some key, w1) =>
          let req := {| apiKey := key;
                        modelId := getModelId E r projectRoot;
                        params := getParametersForRole E r projectRoot;
                        messages := msgs |} in
          match callWithRetries (retryBudget E) r providerId req w1 with
          | (Generated t u, w2) =>
              (Succeeded {| text := t;
                            telemetryData :=
                              {| usedRole := r;
                                 usedProvider := providerId;
                                 usedModel := modelId req;
                                 usedTokens := u |} |},
               w2)
          | (Raised msg, w2) =>
              (FailedWith msg, Logged error (failedLine r) :: w2)
          end
      end
  end.

(** Modelled from the spec: the walk of the Fallback Sequencer over the
    roles left, with the message of the latest failure; [inl] is the
    success that ends the walk, [inr] the latest failure once the roles
    are used up. *)
Fixpoint cascade (seq : list Role) (msgs : list Message)
    (lastError : option string) (w : World)
    : (Success + option string) * World :=
  match seq with
  | [] => (inr lastError, w)
  | r :: rest =>
      match tryRole r msgs w with
      | (Succeeded res, w1) => (inl res, w1)
      | (Skipped, w1) => cascade rest msgs lastError w1
      | (FailedWith msg, w1) => cascade rest msgs (Some msg) w1
      end
  end.

(** Modelled from the spec: [generateTextService({role, session,
    projectRoot, messages})] of the absent [ai-services-unified.js]:
    the cascade from the requested role, and the aggregate failure when
    it is used up. *)
Definition generateTextService (role : Role) (msgs : list Message)
    (w : World) : Outcome * World :=
  let seq := sequenceFor role in
  match cascade seq msgs None w with
  | (inl res, w1) => (Fulfilled res, w1)
  | (inr lastError, w1) =>
      (Rejected {| attempted := seq; underlying := lastError |},
       Logged error (exhaustedLine seq) :: w1)
  end.

End Run.

(** *** Reading a trace *)

(** The roles resolved by the events [new], oldest first. *)
Fixpoint rolesTried (new : World) : list Role :=
  match new with
  | [] => []
  | Resolved r :: rest => (rolesTried rest ++ [r])%list
  | _ :: rest => rolesTried rest
  end.


(** The providers called by the events [new], newest first. *)
Fixpoint providersInvoked (new : World) : list string :=
  match new with
  | [] => []
  | Invoked _ p _ :: rest => p :: providersInvoked rest
  | _ :: rest => providersInvoked rest
  end.

(** The replies to the provider calls among the events [new], which came
    after the events [old]; newest first. *)
Fixpoint replies {Session} (E : Env Session) (new old : World)
    : list (Role * Reply) :=
  match new with
  | [] => []
  | Invoked r p req :: rest =>
      (r, respond E p (calls p (rest ++ old)%list) req) :: replies E rest old
  | _ :: rest => replies E rest old
  end.

Definition raised (x : Role * Reply) : Prop :=
  match snd x with Raised _ => True | Generated _ _ => False end.

(** The message of the newest reply, when it is an error. *)
Definition lastRaised (l : list (Role * Reply)) : option string :=
  match l with
  | (_, Raised msg) :: _ => Some msg
  | _ => None
  end.

(** The provider ids whose credential state the events consult, through
    the presence predicate or through the resolution. *)
Fixpoint credentialQueries (new : World) : list string :=
  match new with
  | [] => []
  | KeyChecked p :: rest => p :: credentialQueries rest
  | KeyResolved p :: rest => p :: credentialQueries rest
  | _ :: rest => credentialQueries rest
  end.

Arguments skipLine : simpl never.
Arguments newCallLine : simpl never.
Arguments failedLine : simpl never.
Arguments exhaustedLine : simpl never.
Arguments retryLine : simpl never.

(** *** Invariants of the traces

    In each of them [new] is what the step added to the world [w] it
    started from. *)

Section Invariants.

Context {Session : Type}.
Variable E : Env Session.
Variable session : Session.
Variable projectRoot : option string.

(** What one pass of the Retry Controller leaves in the trace. *)
Record retryTrace (budget : nat) (r : Role) (p : string) (w : World)
    (reply : Reply) (new : World) : Prop := {
  rt_tried : rolesTried new = [];
  rt_queries : credentialQueries new = [];
  rt_calls :
    exists k, (1 <= k <= S budget)%nat /\ providersInvoked new = repeat p k;
  rt_reply :
    match reply with
    | Generated t u =>
        exists rest, replies E new w = (r, Generated t u) :: rest
                     /\ Forall raised rest
    | Raised msg => Forall raised (replies E new w)
                    /\ lastRaised (replies E new w) = Some msg
    end
}.

(** What one role of the cascade leaves in the trace. *)
Record roleTrace (r : Role) (w : World) (a : Attempt) (new : World)
    : Prop := {
  ro_tried : rolesTried new = [r];
  ro_queries :
    forall p, In p (credentialQueries new) -> requiresCredential p = true;
  ro_invoked : forall p,
      getProvider E r projectRoot = Some p ->
      requiresCredential p = false
      \/ isApiKeySet E p session projectRoot = true ->
      In p (providersInvoked new);
  ro_outcome :
    match a with
    | Succeeded res =>
        usedRole (telemetryData res) = r
        /\ exists rest,
             replies E new w
             = (r, Generated (text res) (usedTokens (telemetryData res))) :: rest
             /\ Forall raised rest
    | Skipped => providersInvoked new = [] /\ replies E new w = []
    | FailedWith msg =>
        Forall raised (replies E new w)
        /\ lastRaised (replies E new w) = Some msg
    end
}.

(** What a walk of the cascade leaves in the trace. *)
Record cascadeTrace (seq : list Role) (lastError : option string)
    (w : World) (result : Success + option string) (new : World) : Prop := {
  ca_queries :
    forall p, In p (credentialQueries new) -> requiresCredential p = true;
  ca_outcome :
    match result with
    | inl res =>
        let r := usedRole (telemetryData res) in
        exists pre post rest,
          seq = (pre ++ r :: post)%list
          /\ rolesTried new = (pre ++ [r])%list
          /\ replies E new w
             = (r, Generated (text res) (usedTokens (telemetryData res))) :: rest
          /\ Forall raised rest
    | inr e =>
        rolesTried new = seq
        /\ Forall raised (replies E new w)
        /\ e = match lastRaised (replies E new w) with
               | Some msg => Some msg
               | None => lastError
               end
    end
}.

(** What a call of the service leaves in the trace. *)
Record serviceTrace (role : Role) (w : World) (out : Outcome) (new : World)
    : Prop := {
  se_queries :
    forall p, In p (credentialQueries new) -> requiresCredential p = true;
  se_outcome :
    match out with
    | Fulfilled res =>
        let r := usedRole (telemetryData res) in
        exists pre post rest,
          sequenceFor role = (pre ++ r :: post)%list
          /\ rolesTried new = (pre ++ [r])%list
          /\ replies E new w
             = (r, Generated (text res) (usedTokens (telemetryData res))) :: rest
          /\ Forall raised rest
    | Rejected agg =>
        rolesTried new = sequenceFor role
        /\ Forall raised (replies E new w)
        /\ agg = {| attempted := sequenceFor role;
                    underlying := lastRaised (replies E new w) |}
        /\ In (Logged error (exhaustedLine (sequenceFor role))) new
    end
}.

End Invariants.

(** The trace of a pass of the Retry Controller that made one call. *)
Ltac single_call r p req Hr :=
  exists [Invoked r p req]; split; [ reflexivity | ];
  split; [ reflexivity | reflexivity
         | exists 1%nat; split; [ lia | reflexivity ] | ];
  simpl; rewrite Hr.

End Service.

(** ** The statements under scrutiny, and the inputs they are tried on *)

Module Claims.

Import ClaudeCode.

Definition hasUserMessage (messages : list Message) : Prop :=
  exists m, In m messages /\ role m = "user".

Definition newlines : string := String "010" (String "010" EmptyString).

(** The content of the most recent user message. *)
Definition lastUserContent (messages : list Message) : string :=
  last (map content (filter isUser messages)) "".

(** The prompt as the specification words it: the content of the system
    message, if one exists, then two line feeds, then the content of the
    most recent user message. *)
Definition promptAsClaimed (messages : list Message) : string :=
  match find isSystem messages with
  | Some s => content s ++ newlines ++ lastUserContent messages
  | None => lastUserContent messages
  end.

(** The prompt in terms of the system message found, if any, and of the
    most recent user message: an empty system message counts for none. *)
Definition promptAsBuilt (system : option Message) (user : Message) : string :=
  match system with
  | Some s => if JS.truthy (content s)
              then content s ++ newlines ++ content user
              else content user
  | None => content user
  end.

(** [v] is an object whose keys are exactly [ks], in any order. *)
Definition hasKeys (v : Value) (ks : list string) : Prop :=
  exists fields, v = Obj fields /\ Permutation (map fst fields) ks.

(** [fields[k]] *)
Fixpoint field (k : string) (fields : list (string * Value)) : option Value :=
  match fields with
  | [] => None
  | (k', v) :: rest => if (k' =? k)%string then Some v else field k rest
  end.

End Claims.

Module Examples.

Import ClaudeCode.

Definition user (s : string) : Message := {| role := "user"; content := s |}.
Definition system (s : string) : Message := {| role := "system"; content := s |}.

(** A CLI that always prints [out] and exits with code 0. *)
Definition answers (out : string) : nat -> string -> Exit :=
  fun _ _ => Close (Some 0%Z) out "".

(** A CLI that always exits with [code] after printing [err] on its
    standard error. *)
Definition crashes (code : Z) (err : string) : nat -> string -> Exit :=
  fun _ _ => Close (Some code) "" err.

(** Parsed JSON, as far as the examples need it: the empty object. *)
Inductive Doc := EmptyObject.

(** [JSON.parse] on the one document of the examples. *)
Definition parseDoc (s : string) : Doc + string :=
  if (s =? "{}")%string then inl EmptyObject
  else inr "Unexpected end of JSON input".

Definition quoted (s : string) : string :=
  String "034" (s ++ String "034" EmptyString).

Definition line (indent : string) (s : string) : string :=
  indent ++ s ++ String "010" EmptyString.

(** The message of the [ZodError] that [z.object({ [key]: z.string() })]
    throws on an object without [key]: the issues, rendered by
    [JSON.stringify(issues, null, 2)]. *)
Definition zodRequired (key : string) : string :=
  line "" "["
  ++ line "  " "{"
  ++ line "    " (quoted "code" ++ ": " ++ quoted "invalid_type" ++ ",")
  ++ line "    " (quoted "expected" ++ ": " ++ quoted "string" ++ ",")
  ++ line "    " (quoted "received" ++ ": " ++ quoted "undefined" ++ ",")
  ++ line "    " (quoted "path" ++ ": [")
  ++ line "      " (quoted key)
  ++ line "    " "],"
  ++ line "    " (quoted "message" ++ ": " ++ quoted "Required")
  ++ line "  " "}"
  ++ "]".

(** [z.object({ name: z.string() })], whatever its rendering is. *)
Definition nameSchema (shape : string) : Schema Doc :=
  {| shapeJson := shape;
     parse := fun d => match d with EmptyObject => inr (zodRequired "name") end |}.

Definition personParams (shape : string) : ObjectParams Doc :=
  {| messages := [system "You are a helpful assistant that generates JSON data.";
                  user "Generate a person object"];
     schema := nameSchema shape;
     objectName := Some "person";
     maxRetries := None |}.

(** *** The configuration of the test suite of the service *)

Import Service.

Definition suiteProvider (mainProvider fallbackProvider : string)
    (r : Role) (_ : option string) : option string :=
  Some match r with
       | main => mainProvider
       | fallback => fallbackProvider
       | research => "perplexity"
       end.

Definition suiteModel (r : Role) (_ : option string) : string :=
  match r with
  | main => "local"
  | fallback => "test-fallback-model"
  | research => "test-research-model"
  end.

Definition suiteParams (r : Role) (_ : option string) : Params :=
  match r with
  | main => {| maxTokens := 100; temperature := (1%Z, 2%positive) |}
  | fallback => {| maxTokens := 150; temperature := (3%Z, 5%positive) |}
  | research => {| maxTokens := 200; temperature := (3%Z, 10%positive) |}
  end.

Definition suiteKey (p : string) (_ : unit) (_ : option string) : option string :=
  if (p =? "anthropic")%string then Some "mock-anthropic-key"
  else if (p =? "perplexity")%string then Some "mock-perplexity-key"
  else if (p =? "openai")%string then Some "mock-openai-key"
  else None.

Definition suite (mainProvider fallbackProvider : string)
    (keySet : string -> bool) (mock : string -> nat -> Reply) : Env unit :=
  {| getProvider := suiteProvider mainProvider fallbackProvider;
     getModelId := suiteModel;
     getParametersForRole := suiteParams;
     isApiKeySet := fun p _ _ => keySet p;
     resolveEnvVariable := suiteKey;
     respond := fun p n _ => mock p n;
     isRetryable := fun msg => JS.includes msg "Rate limit";
     retryBudget := 1 |}.

Definition tokens (i o : Z) : Usage :=
  {| inputTokens := i; outputTokens := o; totalTokens := i + o |}.

(** "should fall back to fallback provider if main fails" *)
Definition mainFails (p : string) (_ : nat) : Reply :=
  if (p =? "claude-code")%string then Raised "Main provider failed"
  else Generated "Fallback provider response" (tokens 15 25).

Definition fallbackRun : Outcome * World :=
  generateTextService (suite "claude-code" "anthropic" (fun _ => true) mainFails)
    tt None main [user "Fallback test"] [].

(** "should throw error if all providers in sequence fail" *)
Definition allFail (p : string) (_ : nat) : Reply :=
  if (p =? "claude-code")%string then Raised "Claude Code failed"
  else if (p =? "anthropic")%string then Raised "Anthropic failed"
  else Raised "Perplexity failed".

Definition allFailRun : Outcome * World :=
  generateTextService (suite "claude-code" "anthropic" (fun _ => true) allFail)
    tt None main [user "All fail test"] [].



(** "should not check API key for claude-code provider and try to use it",
    with the presence predicate answering no throughout. *)
Definition localAnswers (_ : string) (_ : nat) : Reply :=
  Generated "Claude Code response (no API key required)" (tokens 10 10).

Definition noKeysRun : Outcome * World :=
  generateTextService (suite "claude-code" "anthropic" (fun _ => false) localAnswers)
    tt None main [user "Claude Code special case test"] [].

(** "should skip provider with missing API key and try next in fallback
    sequence" *)
Definition anthropicUnset (p : string) : bool := negb (p =? "anthropic")%string.

Definition skipEnv : Env unit :=
  suite "anthropic" "anthropic" anthropicUnset
    (fun _ _ => Generated "Perplexity response (skipped to research)" (tokens 20 30)).



End Examples.

(** ** The path of the CLI *)

Module Paths.

Section Install.

(** [fs.existsSync(path)]; [None] when the check itself throws, which the
    loop catches. *)
Variable existsSync : string -> option bool.

(** [os.homedir()] and [path.join]. *)
Variable homedir : string.
Variable join : string -> string -> string.

(** Lines 21-29: the installation paths tried, in order. *)
Definition possiblePaths : list string :=
  [ "/usr/local/bin/claude";
    join homedir ".npm-global/bin/claude";
    join homedir "node_modules/.bin/claude";
    "claude" ].

(** The [for] loop of lines 32-41: the first path that exists, skipping
    those whose check throws. *)
Fixpoint firstExisting (paths : list string) : option string :=
  match paths with
  | [] => None
  | possiblePath :: rest =>
      match existsSync possiblePath with
      | Some true => Some possiblePath
      | Some false => firstExisting rest
      | None => firstExisting rest
      end
  end.

(** [getClaudeCodePath()] *)
Definition getClaudeCodePath : string :=
  match firstExisting possiblePaths with
  | Some possiblePath => possiblePath
  | None => "claude"
  end.

End Install.

End Paths.

(** ** Predicates on strings used in the statements *)

Module Text.

(** [c] does not occur in [s]. *)
Fixpoint lacks (c : ascii) (s : string) : bool :=
  match s with
  | EmptyString => true
  | String x rest => negb (Ascii.eqb x c) && lacks c rest
  end.

(** The first character of [s] is white space. *)
Definition startsWithSpace (s : string) : bool :=
  match s with
  | EmptyString => false
  | String c _ => JS.isSpace c
  end.

(** The last character of [s] is white space. *)
Fixpoint endsWithSpace (s : string) : bool :=
  match s with
  | EmptyString => false
  | String c EmptyString => JS.isSpace c
  | String _ rest => endsWithSpace rest
  end.

(** [s] is made of white space only. *)
Fixpoint allSpace (s : string) : bool :=
  match s with
  | EmptyString => true
  | String c rest => JS.isSpace c && allSpace rest
  end.

(** The text between the first opening brace and the last closing brace of
    a response, braces included. *)
Definition braced (body : string) : string :=
  String "{" (body ++ String "}" EmptyString).

(** A response made of [pre], a braced [body] and [post]. *)
Definition wrapped (pre body post : string) : string :=
  pre ++ String "{" (body ++ String "}" post).

End Text.

(** ** The worlds between the steps of an attempt *)

Module Steps.

Import ClaudeCode.

(** The world once line 61 has logged the start of a text generation. *)
Definition beforeRun (w : World) : World :=
  {| spawned := spawned w;
     logged := (debug, "Generating text with local Claude Code CLI") :: logged w |}.

(** The world once line 195 has logged the raw response. *)
Definition afterRun (text : string) (w : World) : World :=
  {| spawned := spawned w;
     logged := (debug, "Raw response from Claude: " ++ substring 0 500 text ++ "...")
               :: logged w |}.

(** The world once line 218 has logged the failure of attempt [n]. *)
Definition warned (n : Z) (e : Exn) (w : World) : World :=
  {| spawned := spawned w;
     logged := (warn, "Attempt " ++ JS.ofInt n ++ " failed: " ++ message e)
               :: logged w |}.

End Steps.

(** ** Further inputs *)

Module MoreExamples.

Import ClaudeCode Claims Examples.

(** A schema that accepts every document. *)
Definition acceptAll (shape : string) : Schema Doc :=
  {| shapeJson := shape; parse := fun d => inl d |}.

Definition emptyObjectParams (budget : option Z) : ObjectParams Doc :=
  {| messages := [system "Reply in JSON."; user "first";
                  user "Generate an empty object"];
     schema := acceptAll "{}";
     objectName := None;
     maxRetries := budget |}.

Definition noUserParams : ObjectParams Doc :=
  {| messages := [system "Reply in JSON."];
     schema := acceptAll "{}";
     objectName := None;
     maxRetries := None |}.

(** A CLI whose first process answers in prose and whose later ones print
    the empty object. *)
Definition refusesOnce : nat -> string -> Exit :=
  fun n _ =>
    match n with
    | O => Close (Some 0%Z) "I cannot do that." ""
    | S _ => Close (Some 0%Z) (" {}" ++ String "010" EmptyString) ""
    end.

(** A CLI whose first process answers in prose and whose later ones crash
    on a settings file. *)
Definition failsDifferently : nat -> string -> Exit :=
  fun n _ =>
    match n with
    | O => Close (Some 0%Z) "Sorry, no object." ""
    | S _ => Close (Some 1%Z) "" "Invalid JSON in settings"
    end.

Definition emptyObjectPrompt : string :=
  systemPrompt Doc (emptyObjectParams None) ++ newlines ++ "Generate an empty object".

End MoreExamples.

(** * Properties of the claude-code provider *)

Module ClaudeCodeFacts.

Import ClaudeCode Claims Examples.

Lemma isUser_true m : isUser m = true <-> role m = "user".
Proof. unfold isUser. apply String.eqb_eq. Qed.

Lemma filter_isUser_nil messages :
  filter isUser messages = [] <-> ~ hasUserMessage messages.
Proof.
  split.
  - intros H [m [Hin Hr]].
    assert (Hf : In m (filter isUser messages))
      by (apply filter_In; split; [ exact Hin | apply isUser_true; exact Hr ]).
    rewrite H in Hf. exact Hf.
  - intros H. destruct (filter isUser messages) as [| m l] eqn:Hf; [ reflexivity | ].
    exfalso. apply H. exists m.
    assert (Hin : In m (filter isUser messages)) by (rewrite Hf; left; reflexivity).
    apply filter_In in Hin. destruct Hin as [Hin Hu].
    split; [ exact Hin | apply isUser_true; exact Hu ].
Qed.

Lemma promptContent_None messages :
  promptContent messages = None <-> filter isUser messages = [].
Proof.
  unfold promptContent.
  destruct (filter isUser messages) as [| m l]; simpl.
  - split; reflexivity.
  - split; discriminate.
Qed.

(** Whatever the process does, the promise is not rejected by the guard. *)
Lemma runCli_not_guard cli prompt w :
  fst (runCli cli prompt w) <> Throw NoUserMessage.
Proof.
  unfold runCli.
  destruct (cli (length (spawned w)) prompt) as [[[| c | c] |] out err | reason];
    simpl; discriminate.
Qed.

(** Every run of the CLI is one more process, fed the prompt. *)
Lemma runCli_spawned cli prompt w :
  spawned (snd (runCli cli prompt w)) = prompt :: spawned w.
Proof.
  unfold runCli.
  destruct (cli (length (spawned w)) prompt) as [[[| c | c] |] out err | reason];
    reflexivity.
Qed.

Lemma runCli_Ok cli prompt w s w' :
  runCli cli prompt w = (Ok s, w') ->
  exists out err,
    cli (length (spawned w)) prompt = Close (Some 0%Z) out err
    /\ s = JS.trim out.
Proof.
  unfold runCli.
  destruct (cli (length (spawned w)) prompt) as [[[| c | c] |] out err | reason];
    intros H; try discriminate H.
  injection H as H _. exists out, err. split; [ reflexivity | symmetry; exact H ].
Qed.

Lemma generateClaudeCodeText_unfold cli messages w :
  generateClaudeCodeText cli messages w =
  let w0 := {| spawned := spawned w;
               logged := (debug, "Generating text with local Claude Code CLI")
                         :: logged w |} in
  match promptContent messages with
  | None => (Throw NoUserMessage, w0)
  | Some prompt => runCli cli prompt w0
  end.
Proof.
  unfold generateClaudeCodeText, bind, log, throw. simpl.
  destruct (promptContent messages); reflexivity.
Qed.

Lemma filter_isUser_split pre lastUser post :
  role lastUser = "user" ->
  (forall m, In m post -> role m <> "user") ->
  filter isUser (pre ++ lastUser :: post) = (filter isUser pre ++ [lastUser])%list.
Proof.
  intros Hl Hpost. rewrite filter_app. simpl.
  apply isUser_true in Hl. rewrite Hl.
  assert (Hn : filter isUser post = []).
  { apply filter_isUser_nil. intros [m [Hin Hr]]. exact (Hpost m Hin Hr). }
  rewrite Hn. reflexivity.
Qed.

Lemma promptContent_split pre lastUser post :
  role lastUser = "user" ->
  (forall m, In m post -> role m <> "user") ->
  promptContent (pre ++ lastUser :: post)
  = Some (promptAsBuilt (find isSystem (pre ++ lastUser :: post)) lastUser).
Proof.
  intros Hl Hpost. unfold promptContent.
  rewrite (filter_isUser_split _ _ _ Hl Hpost).
  rewrite length_app. simpl length.
  replace (length (filter isUser pre) + 1 - 1)%nat
    with (length (filter isUser pre)) by lia.
  rewrite nth_middle.
  replace (Nat.eqb (length (filter isUser pre) + 1) 0) with false
    by (symmetry; apply Nat.eqb_neq; lia).
  unfold systemContent, promptAsBuilt, JS.or, newlines.
  destruct (find isSystem (pre ++ lastUser :: post)) as [s |]; simpl.
  - destruct (content s); reflexivity.
  - reflexivity.
Qed.

(** The loop of the object generation always finishes within
    [maxRetries] iterations. *)
Lemma attemptLoop_total cli Json JSON_parse fuel (p : ObjectParams Json)
    attempts lastError w :
  (Z.to_nat (maxRetriesOf Json p - attempts) <= fuel)%nat ->
  attemptLoop cli Json JSON_parse fuel p attempts lastError w <> None.
Proof.
  revert attempts lastError w.
  induction fuel as [| fuel IH]; intros attempts lastError w Hfuel.
  - simpl. destruct (Z.ltb_spec attempts (maxRetriesOf Json p)) as [Hlt | Hge].
    + lia.
    + destruct lastError; discriminate.
  - simpl. destruct (Z.ltb_spec attempts (maxRetriesOf Json p)) as [Hlt | Hge].
    + destruct (attempt cli Json JSON_parse p w) as [[v | e] w1].
      * discriminate.
      * destruct (retried e); [ | discriminate ].
        apply IH. lia.
    + destruct lastError; discriminate.
Qed.

Lemma generateClaudeCodeObject_total cli Json JSON_parse (p : ObjectParams Json) w :
  generateClaudeCodeObject cli Json JSON_parse (enoughFuel Json p) p w <> None.
Proof.
  unfold generateClaudeCodeObject, enoughFuel, log.
  apply attemptLoop_total. rewrite Z.sub_0_r. lia.
Qed.

(** A list with a user message splits at its last user message. *)
Lemma last_user_split messages :
  hasUserMessage messages ->
  exists pre lastUser post,
    messages = (pre ++ lastUser :: post)%list
    /\ role lastUser = "user"
    /\ (forall m, In m post -> role m <> "user").
Proof.
  induction messages as [| a l IH]; intros H.
  - destruct H as [m [[] _]].
  - destruct (filter isUser l) as [| x xs] eqn:Hf.
    + apply filter_isUser_nil in Hf.
      exists [], a, l. split; [ reflexivity | ].
      split.
      * destruct H as [m [[Hm | Hm] Hr]]; [ subst m; exact Hr | ].
        exfalso. apply Hf. exists m. split; assumption.
      * intros m Hin Hr. apply Hf. exists m. split; assumption.
    + assert (Hl : hasUserMessage l).
      { exists x.
        assert (Hin : In x (filter isUser l)) by (rewrite Hf; left; reflexivity).
        apply filter_In in Hin. destruct Hin as [Hin Hu].
        split; [ exact Hin | apply isUser_true; exact Hu ]. }
      destruct (IH Hl) as [pre [lastUser [post [Hs [Hr Hp]]]]].
      exists (a :: pre), lastUser, post. rewrite Hs. auto.
Qed.

(** The messages sent for an object keep the user messages. *)
Lemma jsonMessages_user Json (p : ObjectParams Json) :
  hasUserMessage (messages Json p) -> hasUserMessage (jsonMessages Json p).
Proof.
  intros [m [Hin Hr]]. exists m. split; [ | exact Hr ].
  right. apply filter_In. split; [ exact Hin | ].
  unfold isSystem. rewrite Hr. reflexivity.
Qed.

(** With a user message among the messages, every attempt runs the CLI
    once. *)
Lemma attempt_spawned cli Json JSON_parse (p : ObjectParams Json) w :
  hasUserMessage (messages Json p) ->
  length (spawned (snd (attempt cli Json JSON_parse p w))) = S (length (spawned w)).
Proof.
  intros H. apply jsonMessages_user in H.
  unfold attempt, bind. rewrite generateClaudeCodeText_unfold. cbv zeta.
  destruct (promptContent (jsonMessages Json p)) as [prompt |] eqn:Hp.
  - set (w0 := {| spawned := spawned w;
                  logged := (debug, "Generating text with local Claude Code CLI")
                            :: logged w |}).
    pose proof (runCli_spawned cli prompt w0) as Hs.
    destruct (runCli cli prompt w0) as [[text | e] w1]; simpl in Hs |- *.
    + unfold extractJson, validate, ret, throw.
      destruct (JSON_parse text) as [j | msg].
      * destruct (parse Json (schema Json p) j); simpl; rewrite Hs; reflexivity.
      * destruct (JS.matchBraces text) as [m |]; [ | simpl; rewrite Hs; reflexivity ].
        destruct (JSON_parse m) as [j | msg']; [ | simpl; rewrite Hs; reflexivity ].
        destruct (parse Json (schema Json p) j); simpl; rewrite Hs; reflexivity.
    + rewrite Hs. reflexivity.
  - exfalso. apply promptContent_None, filter_isUser_nil in Hp. exact (Hp H).
Qed.

(** When every attempt ends in an error that line 221 takes for a content
    error, the loop runs the CLI once per attempt until the budget is
    spent and exits through the error that names the budget and the
    message of the last error. *)
Lemma attemptLoop_exhausts cli Json JSON_parse (p : ObjectParams Json) :
  hasUserMessage (messages Json p) ->
  (forall w, exists e,
      fst (attempt cli Json JSON_parse p w) = Throw e /\ retried e = true) ->
  forall fuel attempts lastError w,
    (Z.to_nat (maxRetriesOf Json p - attempts) <= fuel)%nat ->
    (attempts < maxRetriesOf Json p)%Z
    \/ (exists e0, lastError = Some e0 /\ retried e0 = true) ->
    exists e w',
      attemptLoop cli Json JSON_parse fuel p attempts lastError w
      = Some (Throw (Exhausted (maxRetriesOf Json p) (message e)), w')
      /\ retried e = true
      /\ length (spawned w')
         = (length (spawned w) + Z.to_nat (maxRetriesOf Json p - attempts))%nat.
Proof.
  intros Huser Hfail.
  induction fuel as [| fuel IH]; intros attempts lastError w Hfuel Hstate.
  - simpl. destruct (Z.ltb_spec attempts (maxRetriesOf Json p)) as [Hlt | Hge];
      [ lia | ].
    destruct Hstate as [Hlt | [e0 [-> He0]]]; [ lia | ].
    exists e0, w. split; [ reflexivity | ]. split; [ exact He0 | ].
    replace (Z.to_nat (maxRetriesOf Json p - attempts)) with 0%nat by lia. lia.
  - simpl. destruct (Z.ltb_spec attempts (maxRetriesOf Json p)) as [Hlt | Hge].
    + destruct (Hfail w) as [e [He Hr]].
      pose proof (attempt_spawned cli Json JSON_parse p w Huser) as Hs.
      destruct (attempt cli Json JSON_parse p w) as [res w1].
      simpl in He, Hs. subst res. rewrite Hr.
      set (w2 := {| spawned := spawned w1;
                    logged := (warn, ("Attempt " ++ JS.ofInt (attempts + 1)
                                      ++ " failed: " ++ message e)%string)
                              :: logged w1 |}).
      destruct (IH (attempts + 1)%Z (Some e) w2) as [e' [w' [Hrun [Hr' Hlen]]]].
      * lia.
      * right. exists e. split; [ reflexivity | exact Hr ].
      * exists e', w'. split; [ exact Hrun | ]. split; [ exact Hr' | ].
        rewrite Hlen. simpl. rewrite Hs. lia.
    + destruct Hstate as [Hlt | [e0 [-> He0]]]; [ lia | ].
      exists e0, w. split; [ reflexivity | ]. split; [ exact He0 | ].
      replace (Z.to_nat (maxRetriesOf Json p - attempts)) with 0%nat by lia. lia.
Qed.

(** C6, as stated, fails: on a CLI that prints "ok", the text generation
    resolves to the bare string "ok", which is no object with the keys
    text and usage, and the usage of the stream result has the keys
    promptTokens and completionTokens, not inputTokens, outputTokens and
    totalTokens. *)
Lemma normalized_shape_counterexample :
  (exists s w,
      generateClaudeCodeText (answers "ok") [user "hi"] start = (Ok s, w)
      /\ ~ hasKeys (Str s) ["text"; "usage"])
  /\ (exists fields usage w,
        streamClaudeCodeText (answers "ok") [user "hi"] start = (Ok (Obj fields), w)
        /\ field "usage" fields = Some usage
        /\ ~ hasKeys usage ["inputTokens"; "outputTokens"; "totalTokens"]).
Proof.
  split.
  - eexists. eexists. split; [ vm_compute; reflexivity | ].
    intros [fields [H _]]. discriminate H.
  - eexists. eexists. eexists. split; [ vm_compute; reflexivity | ].
    split; [ vm_compute; reflexivity | ].
    intros [fields [H P]]. injection H as H. subst fields.
    apply Permutation_length in P. discriminate P.
Qed.

(** C6, amended: every successful text generation of the claude-code
    provider resolves to a bare string, the trimmed standard output of the
    CLI process that exited with code 0; and every successful stream call
    resolves to the object {textStream, text, usage} whose text is the
    string the text generation resolves to on the same input, whose stream
    delivers that string as one chunk and whose usage is
    {promptTokens: 0, completionTokens: 0}. *)
Theorem provider_result_shapes cli messages w :
  (forall s w',
      generateClaudeCodeText cli messages w = (Ok s, w') ->
      exists prompt out err,
        promptContent messages = Some prompt
        /\ cli (length (spawned w)) prompt = Close (Some 0%Z) out err
        /\ s = JS.trim out)
  /\ (forall v w',
        streamClaudeCodeText cli messages w = (Ok v, w') ->
        exists s,
          generateClaudeCodeText cli messages w = (Ok s, w')
          /\ v = Obj [ ("textStream", Stream [s]);
                       ("text", Str s);
                       ("usage", Obj [ ("promptTokens", Num 0);
                                       ("completionTokens", Num 0) ]) ]).
Proof.
  split.
  - intros s w' H.
    rewrite generateClaudeCodeText_unfold in H. cbv zeta in H.
    destruct (promptContent messages) as [prompt |]; [ | discriminate H ].
    apply runCli_Ok in H. destruct H as [out [err [Hc Hs]]].
    exists prompt, out, err. auto.
  - intros v w'. unfold streamClaudeCodeText, bind, ret.
    destruct (generateClaudeCodeText cli messages w) as [[s | e] w1];
      intros H; [ | discriminate H ].
    injection H as Hv Hw. subst v w1.
    exists s. split; reflexivity.
Qed.

Lemma provider_result_shapes_witness :
  generateClaudeCodeText (answers "  ok ") [user "hi"] start
  = (Ok "ok",
     {| spawned := ["hi"];
        logged := [(debug, "Generating text with local Claude Code CLI")] |})
  /\ exists s,
       generateClaudeCodeText (answers "  ok ") [user "hi"] start
       = (Ok s,
          {| spawned := ["hi"];
             logged := [(debug, "Generating text with local Claude Code CLI")] |})
       /\ Obj [ ("textStream", Stream ["ok"]);
                ("text", Str "ok");
                ("usage", Obj [ ("promptTokens", Num 0);
                                ("completionTokens", Num 0) ]) ]
          = Obj [ ("textStream", Stream [s]);
                  ("text", Str s);
                  ("usage", Obj [ ("promptTokens", Num 0);
                                  ("completionTokens", Num 0) ]) ].
Proof.
  split; [ vm_compute; reflexivity | ].
  apply (proj2 (provider_result_shapes (answers "  ok ") [user "hi"] start)).
  vm_compute. reflexivity.
Defined.

(** C7, at the failing input: the CLI prints the empty object, which
    parses, and the schema [z.object({ name: z.string() })] rejects it
    with a message that contains neither "JSON" nor "schema".  With the
    default budget of 3 attempts the validation error is thrown as it is
    on the first attempt, after a single run of the CLI. *)
Theorem schema_rejection_thrown_at_first_attempt shape :
  let p := personParams shape in
  maxRetriesOf Doc p = 3%Z
  /\ retried (SchemaRejected (zodRequired "name")) = false
  /\ exists w,
       generateClaudeCodeObject (answers "{}") Doc parseDoc (enoughFuel Doc p) p start
       = Some (Throw (SchemaRejected (zodRequired "name")), w)
       /\ length (spawned w) = 1%nat
       /\ hd (debug, "") (logged w)
          = (warn, "Attempt 1 failed: " ++ zodRequired "name").
Proof.
  intros p. split; [ reflexivity | ].
  split; [ vm_compute; reflexivity | ].
  eexists. split; [ vm_compute; reflexivity | ].
  split; vm_compute; reflexivity.
Qed.

(** C8, at the failing input: the CLI exits with code 1 and a standard
    error that mentions JSON.  The execution error is retried until the
    default budget of 3 attempts is spent, the CLI is run three times, and
    the caller receives the exhaustion error in place of the execution
    error. *)
Theorem cli_failure_mentioning_JSON_is_retried shape :
  let p := personParams shape in
  let failure := CliFailed (Some 1%Z) "SyntaxError: Unexpected end of JSON input" in
  retried failure = true
  /\ exists w,
       generateClaudeCodeObject
         (crashes 1 "SyntaxError: Unexpected end of JSON input")
         Doc parseDoc (enoughFuel Doc p) p start
       = Some (Throw (Exhausted 3 (message failure)), w)
       /\ length (spawned w) = 3%nat
       /\ message (Exhausted 3 (message failure))
          = "Failed to generate valid object after 3 attempts: Claude Code CLI failed with code 1: SyntaxError: Unexpected end of JSON input".
Proof.
  intros p failure. split; [ vm_compute; reflexivity | ].
  eexists. split; [ vm_compute; reflexivity | ].
  split; vm_compute; reflexivity.
Qed.

(** C9: the text generation throws "At least one user message is
    required" exactly when no message has the role user, and then no CLI
    process has been spawned; with a user message present that branch is
    never taken, whatever the CLI does. *)
Theorem user_message_guard cli messages w :
  (fst (generateClaudeCodeText cli messages w) = Throw NoUserMessage
     <-> ~ hasUserMessage messages)
  /\ (~ hasUserMessage messages ->
      spawned (snd (generateClaudeCodeText cli messages w)) = spawned w)
  /\ message NoUserMessage = "At least one user message is required".
Proof.
  rewrite generateClaudeCodeText_unfold. cbv zeta.
  split; [ | split; [ | reflexivity ] ].
  - rewrite <- filter_isUser_nil, <- promptContent_None.
    destruct (promptContent messages) as [prompt |].
    + split; [ | discriminate ].
      intros H. exfalso. exact (runCli_not_guard _ _ _ H).
    + split; reflexivity.
  - intros H. apply filter_isUser_nil, promptContent_None in H.
    rewrite H. reflexivity.
Qed.

Lemma user_message_guard_witness :
  ~ hasUserMessage [system "S"]
  /\ fst (generateClaudeCodeText (answers "ok") [system "S"] start)
     = Throw NoUserMessage
  /\ spawned (snd (generateClaudeCodeText (answers "ok") [system "S"] start)) = [].
Proof.
  assert (Hno : ~ hasUserMessage [system "S"]).
  { intros [m [[Hm | []] Hr]]. subst m. discriminate Hr. }
  destruct (user_message_guard (answers "ok") [system "S"] start)
    as [Hiff [Hspawn _]].
  split; [ exact Hno | ].
  split; [ apply Hiff; exact Hno | apply Hspawn; exact Hno ].
Defined.

(** C10, as stated, fails: with an empty system message before the user
    message "hi", the prompt written to the CLI is "hi", not the empty
    content followed by two line feeds and "hi". *)
Lemma empty_system_message_counterexample :
  hasUserMessage [system ""; user "hi"]
  /\ spawned (snd (generateClaudeCodeText (answers "ok") [system ""; user "hi"] start))
     <> [promptAsClaimed [system ""; user "hi"]].
Proof.
  split.
  - exists (user "hi"). split; [ right; left; reflexivity | reflexivity ].
  - vm_compute. intros H. discriminate H.
Qed.

(** C10, amended: when the messages are [pre], then a user message, then
    messages none of which is a user message, exactly one prompt is
    written to the CLI: the content of the first system message, when
    there is one and its content is not empty, followed by two line feeds
    and the content of that last user message, and the content of that
    last user message alone otherwise.  The user messages of [pre] have
    no part in it. *)
Theorem prompt_sent_to_cli cli pre lastUser post w :
  role lastUser = "user" ->
  (forall m, In m post -> role m <> "user") ->
  spawned (snd (generateClaudeCodeText cli (pre ++ lastUser :: post) w))
  = promptAsBuilt (find isSystem (pre ++ lastUser :: post)) lastUser :: spawned w.
Proof.
  intros Hl Hpost. rewrite generateClaudeCodeText_unfold. cbv zeta.
  rewrite (promptContent_split _ _ _ Hl Hpost).
  rewrite runCli_spawned. reflexivity.
Qed.

Lemma prompt_sent_to_cli_witness :
  role (user "second") = "user"
  /\ (forall m, In m [{| role := "assistant"; content := "noted" |}] ->
                role m <> "user")
  /\ spawned (snd (generateClaudeCodeText (answers "ok")
                     ([user "first"; system "S"]
                        ++ user "second"
                        :: [{| role := "assistant"; content := "noted" |}])
                     start))
     = [("S" ++ newlines ++ "second")%string].
Proof.
  assert (Hpost : forall m, In m [{| role := "assistant"; content := "noted" |}] ->
                            role m <> "user").
  { intros m [Hm | []]. subst m. discriminate. }
  split; [ reflexivity | ].
  split; [ exact Hpost | ].
  exact (prompt_sent_to_cli (answers "ok") [user "first"; system "S"]
           (user "second") _ start eq_refl Hpost).
Defined.

End ClaudeCodeFacts.

(** * Properties of the unified AI service *)

Module ServiceFacts.

Import Service Examples.
Open Scope list_scope.

Section Traces.

Context {Session : Type}.
Variable E : Env Session.
Variable session : Session.
Variable projectRoot : option string.

Lemma rolesTried_app (a b : World) :
  rolesTried (a ++ b) = rolesTried b ++ rolesTried a.
Proof.
  induction a as [| e a IH]; simpl.
  - rewrite app_nil_r. reflexivity.
  - destruct e; try exact IH. rewrite IH, app_assoc. reflexivity.
Qed.

Lemma credentialQueries_app (a b : World) :
  credentialQueries (a ++ b) = credentialQueries a ++ credentialQueries b.
Proof.
  induction a as [| e a IH]; simpl; [ reflexivity | ].
  destruct e; simpl; rewrite ?IH; reflexivity.
Qed.

Lemma providersInvoked_app (a b : World) :
  providersInvoked (a ++ b) = providersInvoked a ++ providersInvoked b.
Proof.
  induction a as [| e a IH]; simpl; [ reflexivity | ].
  destruct e; simpl; rewrite ?IH; reflexivity.
Qed.

Lemma replies_app (a b old : World) :
  replies E (a ++ b) old = replies E a (b ++ old) ++ replies E b old.
Proof.
  induction a as [| e a IH]; simpl; [ reflexivity | ].
  destruct e; simpl; rewrite ?IH, <- ?app_assoc; reflexivity.
Qed.

Lemma lastRaised_app l l' msg :
  lastRaised l = Some msg -> lastRaised (l ++ l') = Some msg.
Proof. destruct l as [| [r [t u | m]] l]; simpl; intros H; congruence. Qed.

Lemma lastRaised_None l :
  Forall raised l -> lastRaised l = None -> l = [].
Proof.
  destruct l as [| [r [t u | m]] l]; simpl; intros H H0.
  - reflexivity.
  - inversion H as [| x y Hx Hy]. destruct Hx.
  - discriminate H0.
Qed.

Lemma callWithRetries_trace budget r p req w :
  exists new,
    snd (callWithRetries E budget r p req w) = new ++ w
    /\ retryTrace E budget r p w (fst (callWithRetries E budget r p req w)) new.
Proof.
  revert w. induction budget as [| budget IH]; intros w; simpl.
  - destruct (respond E p (calls p w) req) as [t u | msg] eqn:Hr; simpl;
      single_call r p req Hr.
    + eexists; split; [ reflexivity | constructor ].
    + split; [ repeat constructor | reflexivity ].
  - destruct (respond E p (calls p w) req) as [t u | msg] eqn:Hr; simpl.
    + single_call r p req Hr. eexists; split; [ reflexivity | constructor ].
    + destruct (isRetryable E msg).
      * destruct (IH (Logged info retryLine :: Invoked r p req :: w))
          as [new [Hw [Ht Hq [k [Hk Hc]] Hrep]]].
        exists (new ++ [Logged info retryLine; Invoked r p req]).
        split; [ rewrite Hw, <- app_assoc; reflexivity | ].
        split.
        -- rewrite rolesTried_app, Ht. reflexivity.
        -- rewrite credentialQueries_app, Hq. reflexivity.
        -- exists (S k). split; [ lia | ].
           rewrite providersInvoked_app, Hc. simpl.
           rewrite <- repeat_cons. reflexivity.
        -- rewrite replies_app. simpl. rewrite Hr.
           destruct (fst (callWithRetries E budget r p req
                            (Logged info retryLine :: Invoked r p req :: w)))
             as [t u | m].
           ++ destruct Hrep as [rest [Hrest Hall]]. rewrite Hrest.
              eexists; split; [ reflexivity | ].
              apply Forall_app. split; [ exact Hall | repeat constructor ].
           ++ destruct Hrep as [Hall Hlast]. split.
              ** apply Forall_app. split; [ exact Hall | repeat constructor ].
              ** apply lastRaised_app. exact Hlast.
      * single_call r p req Hr. split; [ repeat constructor | reflexivity ].
Qed.

Lemma gate_trace p w :
  exists new,
    snd (gate E session projectRoot p w) = new ++ w
    /\ rolesTried new = []
    /\ providersInvoked new = []
    /\ replies E new w = []
    /\ (forall q, In q (credentialQueries new) ->
                  q = p /\ requiresCredential p = true)
    /\ (requiresCredential p = false
        \/ isApiKeySet E p session projectRoot = true ->
        fst (gate E session projectRoot p w) <> None).
Proof.
  unfold gate. destruct (requiresCredential p) eqn:Hc.
  - destruct (isApiKeySet E p session projectRoot) eqn:Hk; simpl.
    + exists [KeyResolved p; KeyChecked p]. repeat split; try reflexivity.
      * simpl in H. intuition congruence.
      * discriminate.
    + exists [KeyChecked p]. repeat split; try reflexivity.
      * simpl in H. intuition congruence.
      * intros [H | H]; discriminate H.
  - exists []. repeat split; try reflexivity.
    + destruct H.
    + destruct H.
    + discriminate.
Qed.

Lemma tryRole_trace r msgs w :
  exists new,
    snd (tryRole E session projectRoot r msgs w) = new ++ w
    /\ roleTrace E session projectRoot r w
         (fst (tryRole E session projectRoot r msgs w)) new.
Proof.
  unfold tryRole.
  destruct (getProvider E r projectRoot) as [p |] eqn:Hp.
  - set (w0 := Resolved r :: Logged info (newCallLine r) :: w).
    destruct (gate_trace p w0) as [g [Hg [Hgt [Hgi [Hgr [Hgq Hgo]]]]]].
    destruct (gate E session projectRoot p w0) as [[key |] w1] eqn:Hgate;
      simpl in Hg, Hgo; subst w1.
    + set (req := {| apiKey := key;
                     modelId := getModelId E r projectRoot;
                     params := getParametersForRole E r projectRoot;
                     messages := msgs |}).
      destruct (callWithRetries_trace (retryBudget E) r p req (g ++ w0))
        as [c [Hc [Hct Hcq [k [Hk Hci]] Hcr]]].
      destruct (callWithRetries E (retryBudget E) r p req (g ++ w0))
        as [reply w2] eqn:Hcall.
      simpl in Hc, Hcr. subst w2.
      assert (Hin : In p (providersInvoked c))
        by (rewrite Hci; destruct k as [| k]; [ lia | left; reflexivity ]).
      destruct reply as [t u | msg]; simpl.
      * exists (c ++ g ++ [Resolved r; Logged info (newCallLine r)]).
        split; [ unfold w0; rewrite <- !app_assoc; reflexivity | ].
        split.
        -- rewrite !rolesTried_app, Hct, Hgt. reflexivity.
        -- intros q. rewrite !credentialQueries_app, Hcq. simpl.
           rewrite app_nil_r. intros Hq. apply Hgq in Hq.
           destruct Hq as [-> Hq]. exact Hq.
        -- intros q Hq _. rewrite Hp in Hq. injection Hq as <-.
           rewrite providersInvoked_app. apply in_or_app. left. exact Hin.
        -- simpl. split; [ reflexivity | ].
           rewrite !replies_app, <- ?app_assoc. simpl. rewrite ?app_nil_r.
           change (g ++ Resolved r :: Logged info (newCallLine r) :: w)
             with (g ++ w0).
           change (Resolved r :: Logged info (newCallLine r) :: w) with w0.
           rewrite Hgr, ?app_nil_r. exact Hcr.
      * exists (Logged error (failedLine r)
                  :: c ++ g ++ [Resolved r; Logged info (newCallLine r)]).
        split; [ unfold w0; simpl; rewrite <- !app_assoc; reflexivity | ].
        split.
        -- simpl. rewrite !rolesTried_app, Hct, Hgt. reflexivity.
        -- intros q. simpl. rewrite !credentialQueries_app, Hcq. simpl.
           rewrite app_nil_r. intros Hq. apply Hgq in Hq.
           destruct Hq as [-> Hq]. exact Hq.
        -- intros q Hq _. rewrite Hp in Hq. injection Hq as <-. simpl.
           rewrite providersInvoked_app. apply in_or_app. left. exact Hin.
        -- simpl. rewrite !replies_app, <- ?app_assoc. simpl.
           rewrite ?app_nil_r.
           change (g ++ Resolved r :: Logged info (newCallLine r) :: w)
             with (g ++ w0).
           change (Resolved r :: Logged info (newCallLine r) :: w) with w0.
           rewrite Hgr, ?app_nil_r. exact Hcr.
    + simpl.
      exists (Logged warn (skipLine r p)
                :: g ++ [Resolved r; Logged info (newCallLine r)]).
      split; [ unfold w0; simpl; rewrite <- !app_assoc; reflexivity | ].
      split.
      * simpl. rewrite rolesTried_app, Hgt. reflexivity.
      * intros q. simpl. rewrite credentialQueries_app. simpl.
        rewrite app_nil_r. intros Hq. apply Hgq in Hq.
        destruct Hq as [-> Hq]. exact Hq.
      * intros q Hq Hav. rewrite Hp in Hq. injection Hq as <-.
        exfalso. apply (Hgo Hav). reflexivity.
      * simpl. rewrite providersInvoked_app, replies_app, Hgi. simpl.
        change (Resolved r :: Logged info (newCallLine r) :: w) with w0.
        rewrite Hgr. split; reflexivity.
  - simpl.
    exists [Logged warn
              ("Skipping role '" ++ roleName r ++ "': no provider configured.")%string;
            Resolved r; Logged info (newCallLine r)].
    split; [ reflexivity | ].
    split; simpl.
    + reflexivity.
    + intros q [].
    + intros q Hq. rewrite Hp in Hq. discriminate Hq.
    + split; reflexivity.
Qed.

Lemma cascade_trace seq msgs lastError w :
  exists new,
    snd (cascade E session projectRoot seq msgs lastError w) = new ++ w
    /\ cascadeTrace E seq lastError w
         (fst (cascade E session projectRoot seq msgs lastError w)) new.
Proof.
  revert lastError w. induction seq as [| r seq IH]; intros lastError w.
  - exists []. split; [ reflexivity | ].
    split; simpl; [ intros p [] | repeat split; constructor ].
  - simpl.
    destruct (tryRole_trace r msgs w) as [n1 [Hw1 [Ht1 Hq1 _ Ho1]]].
    destruct (tryRole E session projectRoot r msgs w) as [a w1].
    simpl in Hw1, Ho1. subst w1.
    destruct a as [res | | msg].
    + exists n1. split; [ reflexivity | ].
      split; [ exact Hq1 | ]. simpl.
      destruct Ho1 as [Hr [rest [Hrep Hall]]].
      exists [], seq, rest. rewrite Hr. repeat split; assumption.
    + destruct (IH lastError (n1 ++ w)) as [n2 [Hw2 [Hq2 Ho2]]].
      exists (n2 ++ n1).
      split; [ rewrite Hw2, app_assoc; reflexivity | ].
      destruct Ho1 as [_ Hrep1].
      split.
      * intros p. rewrite credentialQueries_app. intros Hin.
        apply in_app_or in Hin. destruct Hin; auto.
      * rewrite rolesTried_app, replies_app, Ht1, Hrep1, app_nil_r.
        destruct (fst (cascade E session projectRoot seq msgs lastError (n1 ++ w)))
          as [res | e].
        -- cbv zeta in Ho2 |- *.
           destruct Ho2 as [pre [post [rest [Hs [Ht [Hrep Hall]]]]]].
           exists (r :: pre), post, rest.
           rewrite Hs, Ht. repeat split; assumption.
        -- destruct Ho2 as [Ht [Hall He]]. rewrite Ht.
           repeat split; assumption.
    + destruct (IH (Some msg) (n1 ++ w)) as [n2 [Hw2 [Hq2 Ho2]]].
      exists (n2 ++ n1).
      split; [ rewrite Hw2, app_assoc; reflexivity | ].
      destruct Ho1 as [Hall1 Hlast1].
      split.
      * intros p. rewrite credentialQueries_app. intros Hin.
        apply in_app_or in Hin. destruct Hin; auto.
      * rewrite rolesTried_app, replies_app, Ht1.
        destruct (fst (cascade E session projectRoot seq msgs (Some msg) (n1 ++ w)))
          as [res | e].
        -- cbv zeta in Ho2 |- *.
           destruct Ho2 as [pre [post [rest [Hs [Ht [Hrep Hall]]]]]].
           exists (r :: pre), post, (rest ++ replies E n1 w).
           rewrite Hs, Ht, Hrep. repeat split.
           apply Forall_app. split; assumption.
        -- destruct Ho2 as [Ht [Hall He]]. rewrite Ht.
           split; [ reflexivity | ].
           split; [ apply Forall_app; split; assumption | ].
           destruct (lastRaised (replies E n2 (n1 ++ w))) as [m |] eqn:Hl.
           ++ rewrite (lastRaised_app _ _ _ Hl). exact He.
           ++ rewrite (lastRaised_None _ Hall Hl). simpl.
              rewrite Hlast1. exact He.
Qed.

Lemma service_trace role msgs w :
  exists new,
    snd (generateTextService E session projectRoot role msgs w) = new ++ w
    /\ serviceTrace E role w
         (fst (generateTextService E session projectRoot role msgs w)) new.
Proof.
  unfold generateTextService.
  destruct (cascade_trace (sequenceFor role) msgs None w) as [n [Hw [Hq Ho]]].
  destruct (cascade E session projectRoot (sequenceFor role) msgs None w)
    as [[res | e] w1]; simpl in Hw, Ho |- *; subst w1.
  - exists n. split; [ reflexivity | ]. split; assumption.
  - exists (Logged error (exhaustedLine (sequenceFor role)) :: n).
    split; [ reflexivity | ].
    destruct Ho as [Ht [Hall He]].
    split; [ exact Hq | ]. simpl.
    repeat split; try assumption.
    + rewrite He. destruct (lastRaised (replies E n w)); reflexivity.
    + left. reflexivity.
Qed.

Lemma service_trace_of role msgs w out new :
  generateTextService E session projectRoot role msgs w = (out, new ++ w) ->
  serviceTrace E role w out new.
Proof.
  intros H. destruct (service_trace role msgs w) as [n [Hw Ht]].
  rewrite H in Hw, Ht. simpl in Hw, Ht.
  apply app_inv_tail in Hw. subst n. exact Ht.
Qed.








End Traces.

(** C1: a request for the role main walks main, fallback, research in that
    order.  The roles tried by a call are a duplicate-free prefix of that
    list; when the call succeeds the prefix ends with the role whose
    provider produced the returned text, that reply is the newest provider
    reply of the call and every earlier reply was an error, so no role
    after the successful one is tried; the call fails only when all three
    roles were tried and every provider reply of the call was an error, so
    a reply that succeeds is always the one returned. *)
Theorem cascade_order_first_success {Session} (E : Env Session) session
    projectRoot msgs w out new :
  generateTextService E session projectRoot main msgs w = (out, new ++ w) ->
  sequenceFor main = [main; fallback; research]
  /\ NoDup (rolesTried new)
  /\ match out with
     | Fulfilled res =>
         let r := usedRole (telemetryData res) in
         exists pre post rest,
           [main; fallback; research] = pre ++ r :: post
           /\ rolesTried new = pre ++ [r]
           /\ replies E new w
              = (r, Generated (text res) (usedTokens (telemetryData res))) :: rest
           /\ Forall raised rest
     | Rejected _ =>
         rolesTried new = [main; fallback; research]
         /\ Forall raised (replies E new w)
     end.
Proof.
  intros H. apply service_trace_of in H. destruct H as [_ Ho].
  split; [ reflexivity | ].
  assert (Hnd : NoDup [main; fallback; research]).
  { repeat constructor; simpl; intuition discriminate. }
  change (sequenceFor main) with [main; fallback; research] in Ho.
  destruct out as [res | agg].
  - cbv zeta in Ho |- *.
    destruct Ho as [pre [post [rest [Hs [Ht [Hrep Hall]]]]]].
    split.
    + rewrite Ht. rewrite Hs in Hnd.
      replace (pre ++ usedRole (telemetryData res) :: post)
        with ((pre ++ [usedRole (telemetryData res)]) ++ post) in Hnd
        by (rewrite <- app_assoc; reflexivity).
      apply NoDup_app_remove_r in Hnd. exact Hnd.
    + exists pre, post, rest. auto.
  - destruct Ho as [Ht [Hall _]]. rewrite Ht.
    split; [ exact Hnd | split; [ reflexivity | exact Hall ] ].
Qed.

Lemma cascade_order_first_success_witness :
  fallbackRun = (fst fallbackRun, snd fallbackRun ++ [])
  /\ rolesTried (snd fallbackRun) = [main; fallback]
  /\ NoDup (rolesTried (snd fallbackRun)).
Proof.
  assert (H : fallbackRun = (fst fallbackRun, snd fallbackRun ++ []))
    by (vm_compute; reflexivity).
  split; [ exact H | ].
  split; [ vm_compute; reflexivity | ].
  exact (proj1 (proj2 (cascade_order_first_success _ _ _ _ _ _ _ H))).
Defined.

(** C2: when every provider call made by a request for the role main
    raised, so that each role was skipped or failed, the call is rejected
    with one aggregate failure that names main, fallback and research and
    carries the message of the newest error, the one of the last role
    whose provider was called; the error line that lists the three roles
    is logged. *)
Theorem all_roles_exhausted {Session} (E : Env Session) session projectRoot
    msgs w out new :
  generateTextService E session projectRoot main msgs w = (out, new ++ w) ->
  Forall raised (replies E new w) ->
  out = Rejected {| attempted := [main; fallback; research];
                    underlying := lastRaised (replies E new w) |}
  /\ In (Logged error
           "All roles in the sequence [main, fallback, research] failed.") new.
Proof.
  intros H Hall. apply service_trace_of in H. destruct H as [_ Ho].
  destruct out as [res | agg].
  - cbv zeta in Ho. destruct Ho as [pre [post [rest [_ [_ [Hrep _]]]]]].
    rewrite Hrep in Hall. inversion Hall as [| x y Hx Hy]. destruct Hx.
  - destruct Ho as [_ [_ [Hagg Hin]]].
    split; [ rewrite Hagg; reflexivity | exact Hin ].
Qed.

Lemma all_roles_exhausted_witness :
  allFailRun = (fst allFailRun, snd allFailRun ++ [])
  /\ Forall raised
       (replies (suite "claude-code" "anthropic" (fun _ => true) allFail)
          (snd allFailRun) [])
  /\ fst allFailRun
     = Rejected {| attempted := [main; fallback; research];
                   underlying := Some "Perplexity failed" |}.
Proof.
  assert (H : allFailRun = (fst allFailRun, snd allFailRun ++ []))
    by (vm_compute; reflexivity).
  assert (Hall : Forall raised
                   (replies (suite "claude-code" "anthropic" (fun _ => true) allFail)
                      (snd allFailRun) []))
    by (vm_compute; repeat constructor).
  split; [ exact H | ].
  split; [ exact Hall | ].
  rewrite (proj1 (all_roles_exhausted _ _ _ _ _ _ _ H Hall)).
  vm_compute. reflexivity.
Defined.





(** C5: when the provider of a role requires a credential and the
    presence check answers no, the role ends skipped after one query of
    the predicate and the warning "Skipping role '<role>' (Provider:
    <id>): API key not set or invalid.", no provider is called for it, and
    the cascade goes on with the roles that follow. *)
Theorem missing_credential_skips_role {Session} (E : Env Session) session
    projectRoot r p rest msgs lastError w :
  getProvider E r projectRoot = Some p ->
  requiresCredential p = true ->
  isApiKeySet E p session projectRoot = false ->
  let new := [Logged warn (skipLine r p); KeyChecked p; Resolved r;
              Logged info (newCallLine r)] in
  tryRole E session projectRoot r msgs w = (Skipped, new ++ w)
  /\ providersInvoked new = []
  /\ skipLine r p
     = ("Skipping role '" ++ roleName r ++ "' (Provider: " ++ p
        ++ "): API key not set or invalid.")%string
  /\ cascade E session projectRoot (r :: rest) msgs lastError w
     = cascade E session projectRoot rest msgs lastError (new ++ w).
Proof.
  intros Hp Hc Hk new.
  assert (Ht : tryRole E session projectRoot r msgs w = (Skipped, new ++ w)).
  { unfold tryRole, gate. rewrite Hp, Hc, Hk. reflexivity. }
  split; [ exact Ht | ].
  split; [ reflexivity | ].
  split; [ reflexivity | ].
  cbn [cascade]. rewrite Ht. reflexivity.
Qed.

Lemma missing_credential_skips_role_witness :
  getProvider skipEnv main None = Some "anthropic"
  /\ requiresCredential "anthropic" = true
  /\ isApiKeySet skipEnv "anthropic" tt None = false
  /\ tryRole skipEnv tt None main [user "Skip main provider test"] []
     = (Skipped,
        [Logged warn
           "Skipping role 'main' (Provider: anthropic): API key not set or invalid.";
         KeyChecked "anthropic"; Resolved main;
         Logged info "New AI service call with role: main"]).
Proof.
  split; [ reflexivity | ].
  split; [ reflexivity | ].
  split; [ reflexivity | ].
  exact (proj1 (missing_credential_skips_role skipEnv tt None main "anthropic"
                  [fallback; research] [user "Skip main provider test"] None []
                  eq_refl eq_refl eq_refl)).
Defined.

End ServiceFacts.


(** * Further properties of the claude-code provider *)

Module ProviderFacts.

Import ClaudeCode Claims Examples Paths Text Steps MoreExamples ClaudeCodeFacts.

Lemma firstExisting_split existsSync paths :
  match firstExisting existsSync paths with
  | Some found =>
      exists pre post,
        paths = (pre ++ found :: post)%list
        /\ existsSync found = Some true
        /\ (forall c, In c pre -> existsSync c <> Some true)
  | None => forall c, In c paths -> existsSync c <> Some true
  end.
Proof.
  induction paths as [| a l IH]; simpl.
  - intros c [].
  - destruct (existsSync a) as [[|] |] eqn:Ha.
    + exists [], l. repeat split; [ exact Ha | intros c [] ].
    + destruct (firstExisting existsSync l) as [found |].
      * destruct IH as [pre [post [Hs [Hf Hp]]]].
        exists (a :: pre), post. rewrite Hs. repeat split; [ exact Hf | ].
        intros c [Hc | Hc]; [ subst c; congruence | auto ].
      * intros c [Hc | Hc]; [ subst c; congruence | auto ].
    + destruct (firstExisting existsSync l) as [found |].
      * destruct IH as [pre [post [Hs [Hf Hp]]]].
        exists (a :: pre), post. rewrite Hs. repeat split; [ exact Hf | ].
        intros c [Hc | Hc]; [ subst c; congruence | auto ].
      * intros c [Hc | Hc]; [ subst c; congruence | auto ].
Qed.

(** X1: [getClaudeCodePath] returns one of the four candidate paths: the
    first one, in the order of the list, that exists, every candidate before
    it not existing or failing its check; and the bare command name
    "claude", the last of the list, when no candidate exists. *)
Theorem getClaudeCodePath_first_existing existsSync homedir join :
  let found := getClaudeCodePath existsSync homedir join in
  exists pre post,
    possiblePaths homedir join = (pre ++ found :: post)%list
    /\ (forall c, In c pre -> existsSync c <> Some true)
    /\ (existsSync found = Some true \/ (post = [] /\ found = "claude")).
Proof.
  unfold getClaudeCodePath.
  pose proof (firstExisting_split existsSync (possiblePaths homedir join)) as H.
  destruct (firstExisting existsSync (possiblePaths homedir join)) as [found |].
  - destruct H as [pre [post [Hs [Hf Hp]]]]. exists pre, post. auto.
  - exists ["/usr/local/bin/claude"; join homedir ".npm-global/bin/claude";
            join homedir "node_modules/.bin/claude"], [].
    split; [ reflexivity | ].
    split; [ | right; split; reflexivity ].
    intros c Hc. apply H. unfold possiblePaths. simpl in Hc |- *. tauto.
Qed.

Lemma upToLastBrace_lacks post :
  lacks "}" post = true -> JS.upToLastBrace post = None.
Proof.
  induction post as [| c post IH]; simpl; [ reflexivity | ].
  intros H. apply andb_prop in H. destruct H as [Hc Hp].
  rewrite (IH Hp). apply negb_true_iff in Hc. rewrite Hc. reflexivity.
Qed.

Lemma upToLastBrace_None s :
  JS.upToLastBrace s = None -> lacks "}" s = true.
Proof.
  induction s as [| c s IH]; simpl; [ reflexivity | ].
  destruct (JS.upToLastBrace s); [ discriminate | ].
  destruct (Ascii.eqb c "}"); [ discriminate | ].
  intros _. simpl. apply IH. reflexivity.
Qed.

Lemma upToLastBrace_last body post :
  lacks "}" post = true ->
  JS.upToLastBrace (body ++ String "}" post) = Some (body ++ String "}" EmptyString).
Proof.
  intros H. induction body as [| c body IH]; simpl.
  - rewrite (upToLastBrace_lacks _ H). reflexivity.
  - rewrite IH. reflexivity.
Qed.

Lemma upToLastBrace_Some s t :
  JS.upToLastBrace s = Some t ->
  exists body post,
    s = body ++ String "}" post
    /\ t = body ++ String "}" EmptyString
    /\ lacks "}" post = true.
Proof.
  revert t. induction s as [| c s IH]; simpl; intros t; [ discriminate | ].
  destruct (JS.upToLastBrace s) as [t' |] eqn:Hs.
  - intros H. injection H as <-.
    destruct (IH t' eq_refl) as [body [post [H1 [H2 H3]]]].
    exists (String c body), post. simpl. rewrite <- H1, <- H2. auto.
  - destruct (Ascii.eqb_spec c "}") as [-> | Hne]; [ | discriminate ].
    intros H. injection H as <-.
    exists "", s. repeat split. apply upToLastBrace_None. exact Hs.
Qed.

Lemma matchBraces_lacks s :
  lacks "}" s = true -> JS.matchBraces s = None.
Proof.
  induction s as [| c s IH]; simpl; [ reflexivity | ].
  intros H. apply andb_prop in H. destruct H as [_ Hp].
  rewrite (upToLastBrace_lacks _ Hp), (IH Hp).
  destruct (Ascii.eqb c "{"); reflexivity.
Qed.

Theorem matchBraces_span s m :
  JS.matchBraces s = Some m <->
  exists pre body post,
    s = wrapped pre body post
    /\ m = braced body
    /\ lacks "{" pre = true
    /\ lacks "}" post = true.
Proof.
  split.
  - revert m. induction s as [| c s IH]; simpl; intros m; [ discriminate | ].
    destruct (Ascii.eqb_spec c "{") as [-> | Hne].
    + destruct (JS.upToLastBrace s) as [t |] eqn:Ht.
      * intros H. injection H as <-.
        destruct (upToLastBrace_Some _ _ Ht) as [body [post [H1 [H2 H3]]]].
        exists "", body, post. unfold wrapped, braced. simpl.
        rewrite H1, H2. auto.
      * rewrite (matchBraces_lacks _ (upToLastBrace_None _ Ht)). discriminate.
    + intros H. destruct (IH m H) as [pre [body [post [H1 [H2 [H3 H4]]]]]].
      exists (String c pre), body, post. unfold wrapped in *. simpl.
      rewrite H1. repeat split; try assumption.
      apply Ascii.eqb_neq in Hne. rewrite Hne. exact H3.
  - intros [pre [body [post [-> [-> [Hpre Hpost]]]]]].
    unfold wrapped, braced.
    induction pre as [| c pre IH]; simpl.
    + rewrite (upToLastBrace_last _ _ Hpost). reflexivity.
    + simpl in Hpre. apply andb_prop in Hpre. destruct Hpre as [Hc Hp].
      apply negb_true_iff in Hc. rewrite Hc. apply IH. exact Hp.
Qed.

Lemma lacks_app c a b : lacks c (a ++ b) = lacks c a && lacks c b.
Proof.
  induction a as [| x a IH]; simpl; [ reflexivity | ].
  rewrite IH, andb_assoc. reflexivity.
Qed.

Lemma append_assoc a b c : (a ++ b) ++ c = a ++ (b ++ c).
Proof. induction a as [| x a IH]; simpl; [ reflexivity | rewrite IH; reflexivity ]. Qed.

Lemma matchBraces_wrapped pre body post :
  JS.matchBraces (wrapped pre body post) <> None.
Proof.
  assert (Hup : forall a b, JS.upToLastBrace (a ++ String "}" b) <> None).
  { intros a b H. apply upToLastBrace_None in H.
    rewrite lacks_app in H. simpl in H. rewrite andb_false_r in H. discriminate H. }
  unfold wrapped. induction pre as [| c pre IH]; simpl.
  - specialize (Hup body post).
    destruct (JS.upToLastBrace (body ++ String "}" post)); [ discriminate | congruence ].
  - destruct (Ascii.eqb c "{"); [ | exact IH ].
    change (pre ++ String "{" (body ++ String "}" post))
      with (pre ++ (String "{" body) ++ String "}" post).
    rewrite <- append_assoc.
    specialize (Hup (pre ++ String "{" body) post).
    destruct (JS.upToLastBrace ((pre ++ String "{" body) ++ String "}" post));
      [ discriminate | congruence ].
Qed.

Section Extract.
Variable Json : Type.
Variable JSON_parse : string -> Json + string.

(** X3: when the whole response does not parse, the text handed to
    [JSON.parse] is the span from the first opening brace to the last
    closing brace: a response that wraps an object in prose yields the
    object parsed from that span, or the syntax error of that span. *)
Theorem braced_object_is_extracted pre body post w msg :
  JSON_parse (wrapped pre body post) = inr msg ->
  lacks "{" pre = true ->
  lacks "}" post = true ->
  extractJson Json JSON_parse (wrapped pre body post) w
  = (match JSON_parse (braced body) with
     | inl jsonObject => Ok jsonObject
     | inr syntax => Throw (JsonSyntax syntax)
     end, w).
Proof.
  intros Hp Hpre Hpost. unfold extractJson. rewrite Hp.
  assert (Hm : JS.matchBraces (wrapped pre body post) = Some (braced body)).
  { apply matchBraces_span. exists pre, body, post. auto. }
  rewrite Hm. destruct (JSON_parse (braced body)); reflexivity.
Qed.


(** X4: the error "Response did not contain valid JSON object" is raised
    exactly when the response does not parse as a whole and contains no
    opening brace with a closing brace somewhere after it. *)
Theorem no_object_error_iff_no_braces text w :
  fst (extractJson Json JSON_parse text w) = Throw NoJsonObject
  <-> (exists msg, JSON_parse text = inr msg)
      /\ (forall pre body post, text <> wrapped pre body post).
Proof.
  unfold extractJson. split.
  - destruct (JSON_parse text) as [j | msg]; [ discriminate | ].
    destruct (JS.matchBraces text) as [m |] eqn:Hm.
    + destruct (JSON_parse m); discriminate.
    + intros _. split; [ exists msg; reflexivity | ].
      intros pre body post ->. exact (matchBraces_wrapped _ _ _ Hm).
  - intros [[msg Hp] Hno]. rewrite Hp.
    destruct (JS.matchBraces text) as [m |] eqn:Hm; [ | reflexivity ].
    apply matchBraces_span in Hm.
    destruct Hm as [pre [body [post [Ht _]]]].
    exfalso. exact (Hno _ _ _ Ht).
Qed.

End Extract.

Lemma braced_object_is_extracted_witness :
  parseDoc (wrapped "Here it is: " "" " Anything else?")
  = inr "Unexpected end of JSON input"
  /\ lacks "{" "Here it is: " = true
  /\ lacks "}" " Anything else?" = true
  /\ extractJson Doc parseDoc "Here it is: {} Anything else?" start
     = (Ok EmptyObject, start).
Proof.
  split; [ reflexivity | ].
  split; [ reflexivity | ].
  split; [ reflexivity | ].
  exact (braced_object_is_extracted Doc parseDoc "Here it is: " "" " Anything else?" start
           "Unexpected end of JSON input" eq_refl eq_refl eq_refl).
Defined.

Lemma no_object_error_iff_no_braces_witness :
  (forall pre body post, "Sorry, no object." <> wrapped pre body post)
  /\ fst (extractJson Doc parseDoc "Sorry, no object." start) = Throw NoJsonObject.
Proof.
  assert (Hno : forall pre body post, "Sorry, no object." <> wrapped pre body post).
  { intros pre body post H. apply (f_equal (lacks "{")) in H.
    unfold wrapped in H. rewrite lacks_app in H. cbn [lacks] in H.
    rewrite Ascii.eqb_refl, andb_false_r in H. discriminate H. }
  split; [ exact Hno | ].
  apply (proj2 (no_object_error_iff_no_braces Doc parseDoc "Sorry, no object." start)).
  split; [ exists "Unexpected end of JSON input"; reflexivity | exact Hno ].
Defined.

Lemma trimStart_split s :
  exists lead, s = lead ++ JS.trimStart s /\ allSpace lead = true
               /\ startsWithSpace (JS.trimStart s) = false.
Proof.
  induction s as [| c s IH]; simpl.
  - exists "". auto.
  - destruct (JS.isSpace c) eqn:Hc.
    + destruct IH as [lead [H1 [H2 H3]]].
      exists (String c lead). simpl. rewrite <- H1, Hc, H2. auto.
    + exists "". simpl. auto.
Qed.

Lemma trimEnd_split s :
  exists trail, s = JS.trimEnd s ++ trail /\ allSpace trail = true
                /\ endsWithSpace (JS.trimEnd s) = false.
Proof.
  induction s as [| c s IH]; simpl.
  - exists "". auto.
  - destruct IH as [trail [H1 [H2 H3]]].
    destruct (JS.trimEnd s) as [| x t] eqn:Ht.
    + simpl in H1. subst trail.
      destruct (JS.isSpace c) eqn:Hc.
      * exists (String c s). simpl. rewrite Hc, H2. auto.
      * exists s. simpl. rewrite Hc. auto.
    + exists trail. split; [ simpl; f_equal; exact H1 | ].
      split; [ exact H2 | exact H3 ].
Qed.

Lemma trimEnd_head s :
  startsWithSpace s = false -> startsWithSpace (JS.trimEnd s) = false.
Proof.
  destruct s as [| c s]; simpl; [ reflexivity | ].
  intros Hc. destruct (JS.trimEnd s); [ rewrite Hc | ]; simpl; auto.
Qed.

Lemma trim_split s :
  exists lead trail,
    s = lead ++ JS.trim s ++ trail
    /\ allSpace lead = true /\ allSpace trail = true
    /\ startsWithSpace (JS.trim s) = false
    /\ endsWithSpace (JS.trim s) = false.
Proof.
  unfold JS.trim.
  destruct (trimStart_split s) as [lead [H1 [H2 H3]]].
  destruct (trimEnd_split (JS.trimStart s)) as [trail [H4 [H5 H6]]].
  exists lead, trail. rewrite <- H4, <- H1.
  repeat split; try assumption. apply trimEnd_head. exact H3.
Qed.

(** X2: a successful text generation returns the standard output of the
    CLI process with its leading and trailing white space removed: the
    output is white space, then the returned text, then white space, and
    the returned text neither starts nor ends with white space. *)
Theorem generated_text_is_trimmed_stdout cli messages w s w' :
  generateClaudeCodeText cli messages w = (Ok s, w') ->
  exists prompt out err lead trail,
    cli (length (spawned w)) prompt = Close (Some 0%Z) out err
    /\ out = lead ++ s ++ trail
    /\ allSpace lead = true /\ allSpace trail = true
    /\ startsWithSpace s = false /\ endsWithSpace s = false.
Proof.
  intros H.
  rewrite generateClaudeCodeText_unfold in H. cbv zeta in H.
  destruct (promptContent messages) as [prompt |]; [ | discriminate H ].
  apply runCli_Ok in H. destruct H as [out [err [Hc Hs]]]. simpl in Hc.
  destruct (trim_split out) as [lead [trail [H1 H2]]].
  exists prompt, out, err, lead, trail. subst s. auto.
Qed.

Lemma generated_text_is_trimmed_stdout_witness :
  generateClaudeCodeText refusesOnce [user "hi"] {| spawned := ["x"]; logged := [] |}
  = (Ok "{}", {| spawned := ["hi"; "x"];
                 logged := [(debug, "Generating text with local Claude Code CLI")] |})
  /\ exists prompt out err lead trail,
       refusesOnce 1 prompt = Close (Some 0%Z) out err
       /\ out = lead ++ "{}" ++ trail
       /\ allSpace lead = true /\ allSpace trail = true
       /\ startsWithSpace "{}" = false /\ endsWithSpace "{}" = false.
Proof.
  assert (H : generateClaudeCodeText refusesOnce [user "hi"]
                {| spawned := ["x"]; logged := [] |}
              = (Ok "{}", {| spawned := ["hi"; "x"];
                             logged := [(debug, "Generating text with local Claude Code CLI")] |}))
    by (vm_compute; reflexivity).
  split; [ exact H | ].
  exact (generated_text_is_trimmed_stdout _ _ _ _ _ H).
Defined.


Lemma includes_skip a b c0 needle :
  lacks c0 a = true ->
  JS.includes (a ++ b) (String c0 needle) = JS.includes b (String c0 needle).
Proof.
  induction a as [| x a IH]; simpl; intros H; [ reflexivity | ].
  apply andb_prop in H. destruct H as [Hx Ha].
  apply negb_true_iff, Ascii.eqb_neq in Hx.
  destruct (ascii_dec c0 x) as [-> | _]; [ congruence | ].
  apply IH. exact Ha.
Qed.

Lemma digits_lack c d :
  (57 < nat_of_ascii c)%nat -> lacks c (NilEmpty.string_of_uint d) = true.
Proof.
  intros Hc.
  assert (Hd : forall x, (nat_of_ascii x <= 57)%nat -> negb (Ascii.eqb x c) = true).
  { intros x Hx. apply negb_true_iff, Ascii.eqb_neq. intros ->. lia. }
  induction d; cbn [lacks NilEmpty.string_of_uint]; try reflexivity;
    rewrite IHd, andb_true_r; apply Hd; vm_compute; lia.
Qed.

Lemma ofNullableInt_lacks c code :
  (57 < nat_of_ascii c)%nat ->
  lacks c "null" = true ->
  lacks c (JS.ofNullableInt code) = true.
Proof.
  intros Hc Hnull.
  assert (Hd : forall x, (nat_of_ascii x <= 57)%nat -> negb (Ascii.eqb x c) = true).
  { intros x Hx. apply negb_true_iff, Ascii.eqb_neq. intros ->. lia. }
  destruct code as [z |]; [ | exact Hnull ].
  unfold JS.ofNullableInt, JS.ofInt, NilZero.string_of_int.
  assert (Hz : forall d, lacks c (NilZero.string_of_uint d) = true).
  { intros d. unfold NilZero.string_of_uint.
    destruct d; try (apply digits_lack; exact Hc).
    cbn [lacks]. rewrite andb_true_r. apply Hd. vm_compute. lia. }
  destruct (Z.to_int z) as [d | d]; [ apply Hz | ].
  cbn [lacks]. rewrite Hz, andb_true_r. apply Hd. vm_compute. lia.
Qed.

Lemma cli_failure_wording code stderr c0 needle :
  (57 < nat_of_ascii c0)%nat ->
  lacks c0 "Claude Code CLI failed with code null: " = true ->
  JS.includes (message (CliFailed code stderr)) (String c0 needle)
  = JS.includes stderr (String c0 needle).
Proof.
  intros Hc Hl. unfold message.
  rewrite <- !append_assoc.
  apply includes_skip. rewrite !lacks_app.
  change "Claude Code CLI failed with code null: "
    with (("Claude Code CLI failed with code " ++ "null") ++ ": ") in Hl.
  rewrite !lacks_app in Hl.
  apply andb_prop in Hl. destruct Hl as [Hl H3].
  apply andb_prop in Hl. destruct Hl as [H1 H2].
  rewrite H1, H3, (ofNullableInt_lacks _ _ Hc H2). reflexivity.
Qed.

(** X5: whether an execution error is retried depends on the wording of
    what the CLI reports and on nothing else: a failed process is retried
    exactly when its standard error contains "JSON" or "schema", whatever
    its exit code, a process that could not be run exactly when the reason
    does; the missing user message is never retried and the missing JSON
    object always is. *)
Theorem execution_errors_retried_by_wording code stderr reason :
  retried (CliFailed code stderr)
  = (JS.includes stderr "JSON" || JS.includes stderr "schema")
  /\ retried (CliNotExecuted reason)
     = (JS.includes reason "JSON" || JS.includes reason "schema")
  /\ retried NoUserMessage = false
  /\ retried NoJsonObject = true.
Proof.
  split; [ | split; [ | split; reflexivity ] ].
  - unfold retried.
    rewrite (cli_failure_wording code stderr "J" "SON"),
            (cli_failure_wording code stderr "s" "chema");
      try reflexivity; vm_compute; lia.
  - unfold retried, message.
    rewrite (includes_skip "Failed to execute Claude Code CLI: " reason "J" "SON" eq_refl).
    rewrite (includes_skip "Failed to execute Claude Code CLI: " reason "s" "chema" eq_refl).
    reflexivity.
Qed.

Section Loop.
Variable cli : nat -> string -> Exit.
Variable Json : Type.
Variable JSON_parse : string -> Json + string.
Variable p : ObjectParams Json.


Lemma jsonMessages_no_user :
  ~ hasUserMessage (messages Json p) -> promptContent (jsonMessages Json p) = None.
Proof.
  intros H. apply promptContent_None, filter_isUser_nil.
  intros [m [[Hm | Hm] Hr]].
  - subst m. discriminate Hr.
  - apply filter_In in Hm. apply H. exists m. tauto.
Qed.

Lemma systemPrompt_truthy : JS.truthy (systemPrompt Json p) = true.
Proof.
  unfold systemPrompt.
  destruct (systemContent (messages Json p)); reflexivity.
Qed.

Lemma jsonMessages_prompt :
  hasUserMessage (messages Json p) ->
  promptContent (jsonMessages Json p)
  = Some (systemPrompt Json p ++ newlines ++ lastUserContent (messages Json p)).
Proof.
  intros H. destruct (last_user_split _ H) as [pre [lastUser [post [Hs [Hr Hp]]]]].
  assert (Hl : lastUserContent (messages Json p) = content lastUser).
  { unfold lastUserContent. rewrite Hs, (filter_isUser_split _ _ _ Hr Hp).
    rewrite map_app. simpl. apply last_last. }
  assert (Hj : jsonMessages Json p
               = (({| role := "system"; content := systemPrompt Json p |}
                     :: filter (fun m => negb (isSystem m)) pre)
                    ++ lastUser :: filter (fun m => negb (isSystem m)) post)%list).
  { unfold jsonMessages. rewrite Hs, filter_app. simpl.
    unfold isSystem at 2. rewrite Hr. reflexivity. }
  rewrite Hj, promptContent_split.
  - simpl. rewrite systemPrompt_truthy, Hl. reflexivity.
  - exact Hr.
  - intros m Hm. apply filter_In in Hm. apply Hp. tauto.
Qed.

Lemma attempt_unfold w :
  attempt cli Json JSON_parse p w =
  match promptContent (jsonMessages Json p) with
  | None => (Throw NoUserMessage, beforeRun w)
  | Some prompt =>
      match runCli cli prompt (beforeRun w) with
      | (Ok text, w1) =>
          (match extractJson Json JSON_parse text (afterRun text w1) with
           | (Ok j, _) =>
               match parse Json (schema Json p) j with
               | inl v => Ok v
               | inr msg => Throw (SchemaRejected msg)
               end
           | (Throw e, _) => Throw e
           end, afterRun text w1)
      | (Throw e, w1) => (Throw e, w1)
      end
  end.
Proof.
  unfold attempt, bind. rewrite generateClaudeCodeText_unfold. cbv zeta.
  fold (beforeRun w).
  destruct (promptContent (jsonMessages Json p)) as [prompt |]; [ | reflexivity ].
  destruct (runCli cli prompt (beforeRun w)) as [[text | e] w1]; [ | reflexivity ].
  unfold log. fold (afterRun text w1).
  unfold extractJson, validate, ret, throw.
  destruct (JSON_parse text) as [j | msg].
  - destruct (parse Json (schema Json p) j); reflexivity.
  - destruct (JS.matchBraces text) as [m |]; [ | reflexivity ].
    destruct (JSON_parse m) as [j | msg']; [ | reflexivity ].
    destruct (parse Json (schema Json p) j); reflexivity.
Qed.

Lemma attempt_spawned_cases w :
  spawned (snd (attempt cli Json JSON_parse p w))
  = match promptContent (jsonMessages Json p) with
    | Some prompt => prompt :: spawned w
    | None => spawned w
    end.
Proof.
  rewrite attempt_unfold.
  destruct (promptContent (jsonMessages Json p)) as [prompt |]; [ | reflexivity ].
  pose proof (runCli_spawned cli prompt (beforeRun w)) as Hs.
  destruct (runCli cli prompt (beforeRun w)) as [[text | e] w1]; exact Hs.
Qed.

Lemma attempt_Ok w v w' :
  attempt cli Json JSON_parse p w = (Ok v, w') ->
  exists prompt out err text j,
    cli (length (spawned w)) prompt = Close (Some 0%Z) out err
    /\ (text = JS.trim out \/ JS.matchBraces (JS.trim out) = Some text)
    /\ JSON_parse text = inl j
    /\ parse Json (schema Json p) j = inl v.
Proof.
  rewrite attempt_unfold.
  destruct (promptContent (jsonMessages Json p)) as [prompt |]; [ | discriminate ].
  destruct (runCli cli prompt (beforeRun w)) as [[text | e] w1] eqn:Hrun;
    [ | discriminate ].
  apply runCli_Ok in Hrun. destruct Hrun as [out [err [Hc Ht]]]. simpl in Hc.
  unfold extractJson, ret, throw.
  destruct (JSON_parse text) as [j | msg] eqn:Hj.
  - destruct (parse Json (schema Json p) j) as [v' | msg] eqn:Hv; [ | discriminate ].
    intros H. injection H as <- _.
    exists prompt, out, err, text, j. subst text. auto.
  - destruct (JS.matchBraces text) as [m |] eqn:Hm; [ | discriminate ].
    destruct (JSON_parse m) as [j | msg'] eqn:Hj'; [ | discriminate ].
    destruct (parse Json (schema Json p) j) as [v' | msg'] eqn:Hv; [ | discriminate ].
    intros H. injection H as <- _.
    exists prompt, out, err, m, j. subst text. auto.
Qed.

Lemma attemptLoop_Ok fuel attempts lastError w v w' :
  attemptLoop cli Json JSON_parse fuel p attempts lastError w = Some (Ok v, w') ->
  exists w1, attempt cli Json JSON_parse p w1 = (Ok v, w').
Proof.
  revert attempts lastError w.
  induction fuel as [| fuel IH]; intros attempts lastError w; simpl.
  - destruct (attempts <? maxRetriesOf Json p)%Z; [ discriminate | ].
    destruct lastError; discriminate.
  - destruct (attempts <? maxRetriesOf Json p)%Z; [ | destruct lastError; discriminate ].
    destruct (attempt cli Json JSON_parse p w) as [[v1 | e] w1] eqn:Ha.
    + intros H. injection H as <- <-. exists w. exact Ha.
    + destruct (retried e); [ apply IH | discriminate ].
Qed.

Lemma attemptLoop_spawned fuel attempts lastError w res w' :
  attemptLoop cli Json JSON_parse fuel p attempts lastError w = Some (res, w') ->
  exists k,
    (k <= Z.to_nat (maxRetriesOf Json p - attempts))%nat
    /\ spawned w'
       = (match promptContent (jsonMessages Json p) with
          | Some prompt => repeat prompt k
          | None => []
          end ++ spawned w)%list.
Proof.
  revert attempts lastError w.
  induction fuel as [| fuel IH]; intros attempts lastError w; simpl.
  - destruct (Z.ltb_spec attempts (maxRetriesOf Json p)) as [Hlt | Hge];
      [ discriminate | ].
    intros H. exists 0%nat. split; [ lia | ].
    destruct lastError; injection H as _ <-;
      destruct (promptContent (jsonMessages Json p)); reflexivity.
  - destruct (Z.ltb_spec attempts (maxRetriesOf Json p)) as [Hlt | Hge].
    + pose proof (attempt_spawned_cases w) as Hs.
      destruct (attempt cli Json JSON_parse p w) as [[v1 | e] w1]; simpl in Hs.
      * intros H. injection H as _ <-. exists 1%nat. split; [ lia | ].
        rewrite Hs. destruct (promptContent (jsonMessages Json p)); reflexivity.
      * destruct (retried e).
        -- intros H. apply IH in H. destruct H as [k [Hk Hw]].
           exists (S k). split; [ lia | ].
           rewrite Hw. simpl. rewrite Hs.
           destruct (promptContent (jsonMessages Json p)) as [prompt |];
             [ | reflexivity ].
           change (prompt :: spawned w) with ([prompt] ++ spawned w)%list.
           rewrite app_assoc. f_equal.
           change [prompt] with (repeat prompt 1).
           rewrite <- repeat_app. replace (k + 1)%nat with (S k) by lia. reflexivity.
        -- intros H. injection H as _ <-. exists 1%nat. split; [ lia | ].
           simpl. rewrite Hs.
           destruct (promptContent (jsonMessages Json p)); reflexivity.
    + intros H. exists 0%nat. split; [ lia | ].
      destruct lastError; injection H as _ <-;
        destruct (promptContent (jsonMessages Json p)); reflexivity.
Qed.

End Loop.

(** X6: an object returned by the object generation is always what
    [schema.parse] returned on a value that [JSON.parse] produced from the
    trimmed output of a CLI run that exited with code 0, either from the
    whole output or from its span between braces; nothing reaches the
    caller without passing the schema. *)
Theorem resolved_object_is_validated cli Json JSON_parse fuel
    (p : ObjectParams Json) w v w' :
  generateClaudeCodeObject cli Json JSON_parse fuel p w = Some (Ok v, w') ->
  exists n prompt out err text j,
    cli n prompt = Close (Some 0%Z) out err
    /\ (text = JS.trim out \/ JS.matchBraces (JS.trim out) = Some text)
    /\ JSON_parse text = inl j
    /\ parse Json (schema Json p) j = inl v.
Proof.
  unfold generateClaudeCodeObject, log. intros H.
  apply attemptLoop_Ok in H. destruct H as [w1 H].
  apply attempt_Ok in H. destruct H as [prompt [out [err [text [j H]]]]].
  exists (length (spawned w1)), prompt, out, err, text, j. exact H.
Qed.

Lemma resolved_object_is_validated_witness :
  exists w',
    generateClaudeCodeObject refusesOnce Doc parseDoc 3 (emptyObjectParams None) start
    = Some (Ok EmptyObject, w')
    /\ exists n prompt out err text j,
         refusesOnce n prompt = Close (Some 0%Z) out err
         /\ (text = JS.trim out \/ JS.matchBraces (JS.trim out) = Some text)
         /\ parseDoc text = inl j
         /\ parse Doc (schema Doc (emptyObjectParams None)) j = inl EmptyObject.
Proof.
  assert (H : exists w',
             generateClaudeCodeObject refusesOnce Doc parseDoc 3
               (emptyObjectParams None) start
             = Some (Ok EmptyObject, w'))
    by (eexists; vm_compute; reflexivity).
  destruct H as [w' H]. exists w'. split; [ exact H | ].
  exact (resolved_object_is_validated refusesOnce Doc parseDoc 3
           (emptyObjectParams None) start EmptyObject w' H).
Defined.


(** X7: the object generation always finishes, and runs the CLI at most
    [maxRetries] times (never, when [maxRetries] is not positive). *)
Theorem object_generation_bounded cli Json JSON_parse (p : ObjectParams Json) w :
  exists res w',
    generateClaudeCodeObject cli Json JSON_parse (enoughFuel Json p) p w
    = Some (res, w')
    /\ (length (spawned w')
        <= length (spawned w) + Z.to_nat (maxRetriesOf Json p))%nat.
Proof.
  pose proof (generateClaudeCodeObject_total cli Json JSON_parse p w) as Ht.
  destruct (generateClaudeCodeObject cli Json JSON_parse (enoughFuel Json p) p w)
    as [[res w'] |] eqn:Hrun; [ | congruence ].
  exists res, w'. split; [ reflexivity | ].
  unfold generateClaudeCodeObject, log in Hrun.
  apply attemptLoop_spawned in Hrun. destruct Hrun as [k [Hk Hw]].
  rewrite Hw, length_app, Z.sub_0_r in *. simpl.
  destruct (promptContent (jsonMessages Json p));
    [ rewrite repeat_length | simpl ]; lia.
Qed.

(** X8: with a user message among the messages, every attempt of the
    object generation writes the same prompt to the CLI: the system prompt
    with the JSON instructions, two line feeds, and the content of the most
    recent user message.  Nothing of a failed attempt is fed back into the
    next one. *)
Theorem every_attempt_sends_same_prompt cli Json JSON_parse fuel
    (p : ObjectParams Json) w res w' :
  hasUserMessage (messages Json p) ->
  generateClaudeCodeObject cli Json JSON_parse fuel p w = Some (res, w') ->
  exists k,
    (k <= Z.to_nat (maxRetriesOf Json p))%nat
    /\ spawned w'
       = (repeat (systemPrompt Json p ++ newlines
                  ++ lastUserContent (messages Json p))%string k
          ++ spawned w)%list.
Proof.
  intros Hu Hrun. unfold generateClaudeCodeObject, log in Hrun.
  apply attemptLoop_spawned in Hrun. destruct Hrun as [k [Hk Hw]].
  rewrite (jsonMessages_prompt Json p Hu), Z.sub_0_r in *.
  exists k. split; [ exact Hk | exact Hw ].
Qed.

Lemma every_attempt_sends_same_prompt_witness :
  hasUserMessage (messages Doc (emptyObjectParams None))
  /\ exists res w',
       generateClaudeCodeObject refusesOnce Doc parseDoc 3 (emptyObjectParams None) start
       = Some (res, w')
       /\ exists k,
            (k <= 3)%nat
            /\ spawned w' = (repeat emptyObjectPrompt k ++ [])%list.
Proof.
  assert (Hu : hasUserMessage (messages Doc (emptyObjectParams None))).
  { exists (user "first"). split; [ right; left; reflexivity | reflexivity ]. }
  assert (H : exists res w',
             generateClaudeCodeObject refusesOnce Doc parseDoc 3
               (emptyObjectParams None) start
             = Some (res, w'))
    by (eexists; eexists; vm_compute; reflexivity).
  destruct H as [res [w' H]].
  split; [ exact Hu | ]. exists res, w'. split; [ exact H | ].
  exact (every_attempt_sends_same_prompt refusesOnce Doc parseDoc 3
           (emptyObjectParams None) start res w' Hu H).
Defined.


(** X9: with a [maxRetries] that is not positive no attempt is made, the
    CLI is never run, and the call fails on the [null] last error with the
    message "Cannot read properties of null (reading 'message')" rather
    than with the error that names the attempts. *)
Theorem no_budget_is_a_type_error cli Json JSON_parse fuel (p : ObjectParams Json) w :
  (maxRetriesOf Json p <= 0)%Z ->
  exists w',
    generateClaudeCodeObject cli Json JSON_parse fuel p w
    = Some (Throw NullLastError, w')
    /\ spawned w' = spawned w
    /\ message NullLastError = "Cannot read properties of null (reading 'message')".
Proof.
  intros H. unfold generateClaudeCodeObject, log.
  eexists. split; [ | split; [ | reflexivity ] ].
  - destruct fuel; simpl;
      (destruct (Z.ltb_spec 0 (maxRetriesOf Json p)); [ lia | reflexivity ]).
  - reflexivity.
Qed.

Lemma no_budget_is_a_type_error_witness :
  (maxRetriesOf Doc (emptyObjectParams (Some 0%Z)) <= 0)%Z
  /\ exists w',
       generateClaudeCodeObject (answers "{}") Doc parseDoc 3
         (emptyObjectParams (Some 0%Z)) start
       = Some (Throw NullLastError, w')
       /\ spawned w' = []
       /\ message NullLastError = "Cannot read properties of null (reading 'message')".
Proof.
  assert (H : (maxRetriesOf Doc (emptyObjectParams (Some 0%Z)) <= 0)%Z)
    by (unfold maxRetriesOf; simpl; lia).
  split; [ exact H | ].
  exact (no_budget_is_a_type_error (answers "{}") Doc parseDoc 3
           (emptyObjectParams (Some 0%Z)) start H).
Defined.


(** X10: without a user message the object generation fails at the first
    attempt with "At least one user message is required", whatever the
    (positive) retry budget, and never runs the CLI. *)
Theorem object_without_user_message cli Json JSON_parse (p : ObjectParams Json) w :
  ~ hasUserMessage (messages Json p) ->
  (0 < maxRetriesOf Json p)%Z ->
  exists w',
    generateClaudeCodeObject cli Json JSON_parse (enoughFuel Json p) p w
    = Some (Throw NoUserMessage, w')
    /\ spawned w' = spawned w.
Proof.
  intros Hu Hb. unfold generateClaudeCodeObject, log, enoughFuel.
  destruct (Z.to_nat (maxRetriesOf Json p)) as [| fuel] eqn:Hf; [ lia | ].
  simpl. destruct (Z.ltb_spec 0 (maxRetriesOf Json p)); [ | lia ].
  rewrite attempt_unfold, (jsonMessages_no_user Json p Hu).
  eexists. split; reflexivity.
Qed.

Lemma object_without_user_message_witness :
  ~ hasUserMessage (messages Doc noUserParams)
  /\ (0 < maxRetriesOf Doc noUserParams)%Z
  /\ exists w',
       generateClaudeCodeObject (answers "{}") Doc parseDoc 3 noUserParams start
       = Some (Throw NoUserMessage, w')
       /\ spawned w' = [].
Proof.
  assert (Hu : ~ hasUserMessage (messages Doc noUserParams)).
  { intros [m [[Hm | []] Hr]]. subst m. discriminate Hr. }
  assert (Hb : (0 < maxRetriesOf Doc noUserParams)%Z) by (unfold maxRetriesOf; simpl; lia).
  split; [ exact Hu | ]. split; [ exact Hb | ].
  exact (object_without_user_message (answers "{}") Doc parseDoc noUserParams start Hu Hb).
Defined.


(** One iteration of the loop, while attempts are left. *)
Lemma attemptLoop_step cli Json JSON_parse (p : ObjectParams Json)
    fuel attempts lastError w :
  (attempts < maxRetriesOf Json p)%Z ->
  attemptLoop cli Json JSON_parse (S fuel) p attempts lastError w
  = match attempt cli Json JSON_parse p w with
    | (Ok validatedObject, w1) => Some (Ok validatedObject, w1)
    | (Throw e, w1) =>
        if retried e
        then attemptLoop cli Json JSON_parse fuel p (attempts + 1) (Some e)
               (warned (attempts + 1) e w1)
        else Some (Throw e, warned (attempts + 1) e w1)
    end.
Proof.
  intros Hlt. cbn [attemptLoop].
  destruct (Z.ltb_spec attempts (maxRetriesOf Json p)) as [_ | Hge]; [ | lia ].
  destruct (attempt cli Json JSON_parse p w) as [[v | e] w1]; reflexivity.
Qed.

(** The loop that only meets errors taken for content errors ends with the
    error of its last attempt, or with the error it was handed when no
    attempt is left. *)
Lemma attemptLoop_exhausts_last cli Json JSON_parse (p : ObjectParams Json) :
  (forall w, exists e,
      fst (attempt cli Json JSON_parse p w) = Throw e /\ retried e = true) ->
  forall fuel attempts lastError w,
    (Z.to_nat (maxRetriesOf Json p - attempts) <= fuel)%nat ->
    exists w',
      (attempts < maxRetriesOf Json p)%Z
      /\ (exists e wl,
            attemptLoop cli Json JSON_parse fuel p attempts lastError w
            = Some (Throw (Exhausted (maxRetriesOf Json p) (message e)), w')
            /\ retried e = true
            /\ fst (attempt cli Json JSON_parse p wl) = Throw e
            /\ w' = warned (maxRetriesOf Json p) e
                      (snd (attempt cli Json JSON_parse p wl)))
      \/ (maxRetriesOf Json p <= attempts)%Z
         /\ w' = w
         /\ attemptLoop cli Json JSON_parse fuel p attempts lastError w
            = Some (match lastError with
                    | Some e => Throw (Exhausted (maxRetriesOf Json p) (message e))
                    | None => Throw NullLastError
                    end, w).
Proof.
  intros Hfail.
  induction fuel as [| fuel IH]; intros attempts lastError w Hfuel.
  - exists w. right. simpl.
    destruct (Z.ltb_spec attempts (maxRetriesOf Json p)) as [Hlt | Hge]; [ lia | ].
    split; [ exact Hge | ]. split; [ reflexivity | ].
    destruct lastError; reflexivity.
  - destruct (Z.lt_ge_cases attempts (maxRetriesOf Json p)) as [Hlt | Hge].
    + rewrite (attemptLoop_step _ _ _ _ _ _ _ _ Hlt).
      destruct (Hfail w) as [e [He Hr]].
      destruct (attempt cli Json JSON_parse p w) as [res w1] eqn:Ha.
      simpl in He. subst res. rewrite Hr.
      destruct (IH (attempts + 1)%Z (Some e) (warned (attempts + 1) e w1))
        as [w' [[Hlt' [e' [wl [Hrun [Hr' [He' Hw']]]]]] | [Hge' [Hw' Hrun]]]];
        [ lia | | ].
      * exists w'. left. split; [ exact Hlt | ].
        exists e', wl. auto.
      * exists w'. left. split; [ exact Hlt | ].
        exists e, w. rewrite Hrun, Ha. cbn [fst snd].
        replace (maxRetriesOf Json p) with (attempts + 1)%Z at 3 by lia.
        subst w'. auto.
    + exists w. right. split; [ exact Hge | ]. split; [ reflexivity | ].
      cbn [attemptLoop].
      destruct (Z.ltb_spec attempts (maxRetriesOf Json p)) as [Hlt | _]; [ lia | ].
      destruct lastError; reflexivity.
Qed.

(** X11: when every attempt ends in an error whose message contains "JSON"
    or "schema", the CLI is run exactly [maxRetries] times and the call
    fails with the error that names [maxRetries] and the message of the
    last of those errors: the error thrown by the attempt that made the
    last run of the CLI, after whose warning nothing more happens. *)
Theorem content_errors_exhaust_budget cli Json JSON_parse (p : ObjectParams Json) w :
  hasUserMessage (messages Json p) ->
  (0 < maxRetriesOf Json p)%Z ->
  (forall w1, exists e,
      fst (attempt cli Json JSON_parse p w1) = Throw e /\ retried e = true) ->
  exists e wl w',
    generateClaudeCodeObject cli Json JSON_parse (enoughFuel Json p) p w
    = Some (Throw (Exhausted (maxRetriesOf Json p) (message e)), w')
    /\ retried e = true
    /\ length (spawned w')
       = (length (spawned w) + Z.to_nat (maxRetriesOf Json p))%nat
    /\ fst (attempt cli Json JSON_parse p wl) = Throw e
    /\ w' = warned (maxRetriesOf Json p) e (snd (attempt cli Json JSON_parse p wl))
    /\ S (length (spawned wl)) = length (spawned w').
Proof.
  intros Hu Hb Hfail. unfold generateClaudeCodeObject, log, enoughFuel.
  set (w0 := {| spawned := spawned w;
                logged := (debug, "Generating object '" ++ objectNameOf Json p
                                  ++ "' with Claude Code CLI") :: logged w |}).
  destruct (attemptLoop_exhausts cli Json JSON_parse p Hu Hfail
              (Z.to_nat (maxRetriesOf Json p)) 0%Z None w0)
    as [e0 [w0' [Hrun0 [_ Hlen]]]].
  - rewrite Z.sub_0_r. lia.
  - left. exact Hb.
  - destruct (attemptLoop_exhausts_last cli Json JSON_parse p Hfail
                (Z.to_nat (maxRetriesOf Json p)) 0%Z None w0)
      as [w' [[_ [e [wl [Hrun [Hr [He Hw']]]]]] | [Hge _]]];
      [ rewrite Z.sub_0_r; lia | | lia ].
    exists e, wl, w'.
    assert (Hsame : w0' = w') by congruence.
    subst w0'. rewrite Z.sub_0_r in Hlen.
    split; [ exact Hrun | ]. split; [ exact Hr | ].
    split; [ exact Hlen | ]. split; [ exact He | ]. split; [ exact Hw' | ].
    rewrite Hw'. cbn [warned spawned].
    symmetry. apply attempt_spawned. exact Hu.
Qed.

Lemma content_errors_exhaust_budget_witness :
  exists e wl w',
    generateClaudeCodeObject failsDifferently Doc parseDoc 3
      (emptyObjectParams None) start
    = Some (Throw (Exhausted 3 (message e)), w')
    /\ retried e = true
    /\ length (spawned w') = 3%nat
    /\ fst (attempt failsDifferently Doc parseDoc (emptyObjectParams None) wl)
       = Throw e
    /\ w' = warned 3 e
              (snd (attempt failsDifferently Doc parseDoc (emptyObjectParams None) wl))
    /\ S (length (spawned wl)) = length (spawned w').
Proof.
  apply (content_errors_exhaust_budget failsDifferently Doc parseDoc
           (emptyObjectParams None) start).
  - exists (user "first"). split; [ right; left; reflexivity | reflexivity ].
  - unfold maxRetriesOf; simpl; lia.
  - intros w1. rewrite attempt_unfold.
    rewrite (jsonMessages_prompt Doc (emptyObjectParams None))
      by (exists (user "first"); split; [ right; left; reflexivity | reflexivity ]).
    unfold runCli. cbn [spawned beforeRun].
    destruct (length (spawned w1)) as [| n].
    + exists NoJsonObject. split; reflexivity.
    + exists (CliFailed (Some 1%Z) "Invalid JSON in settings").
      split; reflexivity.
Defined.


(** X12: when the first response holds no JSON object and the second one
    parses and passes the schema, the call returns the validated object of
    the second response after exactly two runs of the CLI on the same
    prompt, and the warning of the first attempt is logged. *)
Theorem retry_after_missing_object cli Json JSON_parse (p : ObjectParams Json) w
    prompt out1 err1 msg1 out2 err2 j v :
  promptContent (jsonMessages Json p) = Some prompt ->
  (2 <= maxRetriesOf Json p)%Z ->
  cli (length (spawned w)) prompt = Close (Some 0%Z) out1 err1 ->
  JSON_parse (JS.trim out1) = inr msg1 ->
  JS.matchBraces (JS.trim out1) = None ->
  cli (S (length (spawned w))) prompt = Close (Some 0%Z) out2 err2 ->
  JSON_parse (JS.trim out2) = inl j ->
  parse Json (schema Json p) j = inl v ->
  exists w',
    generateClaudeCodeObject cli Json JSON_parse (enoughFuel Json p) p w
    = Some (Ok v, w')
    /\ spawned w' = prompt :: prompt :: spawned w
    /\ In (warn, "Attempt 1 failed: Response did not contain valid JSON object")
          (logged w').
Proof.
  intros Hp Hb H1 Hj1 Hm1 H2 Hj2 Hv.
  unfold generateClaudeCodeObject, log, enoughFuel.
  destruct (Z.to_nat (maxRetriesOf Json p)) as [| [| fuel]] eqn:Hf; try lia.
  cbn [attemptLoop].
  destruct (Z.ltb_spec 0 (maxRetriesOf Json p)); [ | lia ].
  rewrite attempt_unfold, Hp. unfold runCli at 1. cbn [spawned beforeRun].
  rewrite H1. unfold extractJson at 1. rewrite Hj1, Hm1. unfold throw, log.
  change (retried NoJsonObject) with true. cbv iota.
  destruct (Z.ltb_spec (0 + 1) (maxRetriesOf Json p)); [ | lia ].
  rewrite attempt_unfold, Hp. unfold runCli. cbn [spawned beforeRun afterRun length].
  rewrite H2. unfold extractJson, ret. rewrite Hj2, Hv.
  eexists. split; [ reflexivity | ].
  split; [ reflexivity | ].
  simpl. tauto.
Qed.

Lemma retry_after_missing_object_witness :
  exists w',
    generateClaudeCodeObject refusesOnce Doc parseDoc 3 (emptyObjectParams None) start
    = Some (Ok EmptyObject, w')
    /\ spawned w' = [emptyObjectPrompt; emptyObjectPrompt]
    /\ In (warn, "Attempt 1 failed: Response did not contain valid JSON object")
          (logged w').
Proof.
  apply (retry_after_missing_object refusesOnce Doc parseDoc
           (emptyObjectParams None) start emptyObjectPrompt
           "I cannot do that." "" "Unexpected end of JSON input"
           (" {}" ++ String "010" EmptyString) "" EmptyObject EmptyObject).
  - vm_compute. reflexivity.
  - unfold maxRetriesOf; simpl; lia.
  - reflexivity.
  - reflexivity.
  - reflexivity.
  - reflexivity.
  - reflexivity.
  - reflexivity.
Defined.

End ProviderFacts.
